(** * Conversational retrieval QA chain: a shallow embedding

    The development follows the three Python sources of the project:

    - [Py]        the fragment of Python's built-in behaviour the sources use
                  (unicode strings, [str.strip], [str.split], [str.lower],
                  slices, exceptions);
    - [QAChain]   [qa_chain.py]: the class [ZhipuQAChain];
    - [App]       [app.py]: the sidebar code that updates the configuration;
    - [CreateDb]  [create_db.py]: [load_documents].

    Calls into LangChain, the vector store and the chat model are taken as
    parameters of the sections that need them. *)

From Stdlib Require Import String Ascii Decimal DecimalString.
From Stdlib Require Import ZArith NArith List Bool Floats Lia.
Import ListNotations.

(* ================================================================== *)
(** * Python values and built-ins *)
(* ================================================================== *)

Module Py.

(** A Python [str] is a sequence of Unicode code points. *)
Definition char := N.
Definition str := list char.

(** Decoder used to write the string literals of the sources (UTF-8 in the
    file) as code-point sequences. *)
Fixpoint utf8_go (bs : list N) (acc : N) (need : nat) : str :=
  match bs with
  | [] => []
  | b :: bs' =>
      match need with
      | O =>
          if (b <? 128)%N then b :: utf8_go bs' 0%N O
          else if (b <? 224)%N then utf8_go bs' (b - 192)%N 1%nat
          else if (b <? 240)%N then utf8_go bs' (b - 224)%N 2%nat
          else utf8_go bs' (b - 240)%N 3%nat
      | S n =>
          let acc' := (acc * 64 + (b - 128))%N in
          match n with
          | O => acc' :: utf8_go bs' 0%N O
          | S _ => utf8_go bs' acc' n
          end
      end
  end.

Definition lit (s : string) : str :=
  utf8_go (map N_of_ascii (list_ascii_of_string s)) 0%N O.

(** [c.isspace()] for one code point: the table of CPython's
    [_PyUnicode_IsWhitespace]. *)
Definition isspace (c : char) : bool :=
  (((9 <=? c) && (c <=? 13)) || ((28 <=? c) && (c <=? 32))
   || (c =? 133) || (c =? 160) || (c =? 5760)
   || ((8192 <=? c) && (c <=? 8202))
   || (c =? 8232) || (c =? 8233) || (c =? 8239) || (c =? 8287)
   || (c =? 12288))%N.

Fixpoint lstrip (s : str) : str :=
  match s with
  | [] => []
  | c :: s' => if isspace c then lstrip s' else s
  end.

Definition rstrip (s : str) : str := rev (lstrip (rev s)).

(** [s.strip()] *)
Definition strip (s : str) : str := rstrip (lstrip s).

(** Truth value of a [str] and of a [list]: non-empty. *)
Definition truthy {A} (l : list A) : bool :=
  match l with [] => false | _ :: _ => true end.

(** [l[start:]] for an integer [start] (negative counts from the end). *)
Definition slice_from {A} (start : Z) (l : list A) : list A :=
  let len := Z.of_nat (length l) in
  let s := if (start <? 0)%Z then Z.max (len + start) 0 else Z.min start len in
  skipn (Z.to_nat s) l.

(** [sep.join(parts)] *)
Fixpoint join (sep : str) (parts : list str) : str :=
  match parts with
  | [] => []
  | [p] => p
  | p :: ps => p ++ sep ++ join sep ps
  end.

(** [s.split(sep)] for a one-character separator: never empty. *)
Fixpoint split (sep : char) (s : str) : list str :=
  match s with
  | [] => [[]]
  | c :: s' =>
      if (c =? sep)%N then [] :: split sep s'
      else match split sep s' with
           | [] => [[c]]
           | p :: ps => (c :: p) :: ps
           end
  end.

(** [s.split(sep)[-1]]: [split] never gives an empty list. *)
Definition last_part (sep : char) (s : str) : str := last (split sep s) [].

(** [s.lower()].  ASCII capitals are written out; the mapping of the other
    code points is the Unicode database's, taken as the table [unicode_lower]
    (a code point may map to several). *)
Definition lower (unicode_lower : char -> str) (s : str) : str :=
  flat_map (fun c =>
              if (c <? 128)%N
              then [if ((65 <=? c) && (c <=? 90))%N then (c + 32)%N else c]
              else unicode_lower c) s.

(** [a == b] on [str]. *)
Fixpoint str_eqb (a b : str) : bool :=
  match a, b with
  | [], [] => true
  | c :: a', d :: b' => (c =? d)%N && str_eqb a' b'
  | _, _ => false
  end.

(** [x in l] for a list of [str]. *)
Definition str_in (x : str) (l : list str) : bool := existsb (str_eqb x) l.

(** [os.path.join(a, b)] of [posixpath]. *)
Definition path_join (a b : str) : str :=
  match b with
  | 47%N :: _ => b
  | _ =>
      match a with
      | [] => b
      | _ => if (last a 0 =? 47)%N then a ++ b else a ++ 47%N :: b
      end
  end.

(** [s.replace(old, new)] for a one-character [old]. *)
Definition replace_char (old : char) (new : str) (s : str) : str :=
  flat_map (fun c => if (c =? old)%N then new else [c]) s.

(** [s.replace(old, new)] for a two-character [old]: the occurrences are
    taken from the left and do not overlap. *)
Fixpoint replace_pair (old1 old2 : char) (new : str) (s : str) : str :=
  match s with
  | [] => []
  | a :: tl =>
      match tl with
      | b :: rest =>
          if ((a =? old1) && (b =? old2))%N
          then new ++ replace_pair old1 old2 new rest
          else a :: replace_pair old1 old2 new tl
      | [] => [a]
      end
  end.

(** [str(n)] for a length. *)
Definition str_of_nat (n : nat) : str :=
  lit (NilEmpty.string_of_uint (Nat.to_uint n)).

(** Exceptions.  [except Exception] catches the first kind only;
    [KeyboardInterrupt], [SystemExit] and [GeneratorExit] are of the second. *)
Inductive exn :=
| Exc (cls : string) (msg : str)
| BaseExc (cls : string).

(** How a call ends. *)
Inductive outcome (A : Type) :=
| Returned (a : A)
| Raised (e : exn).
Arguments Returned {A} a.
Arguments Raised {A} e.

End Py.

Import Py.

(* ================================================================== *)
(** * qa_chain.py *)
(* ================================================================== *)

Module QAChain.

(** A turn of the conversation: the tuple [(question, full_answer)]. *)
Definition Turn := (str * str)%type.

(** A chat message as LangChain takes it: [(role, content)]. *)
Definition message := (string * str)%type.

Record Document := { page_content : str; source : str }.

(** [ZhipuaiLLM(model_name=..., temperature=...)] *)
Record ZhipuaiLLM := { llm_model_name : str; llm_temperature : float }.

(** [vectordb.as_retriever(search_type="similarity", search_kwargs={'k': ...})]
    over the store opened at [persist_directory]. *)
Record Retriever := { retr_persist_directory : str; retr_k : Z }.

(** What [_build_chain] closes over: the runnable kept in [self.chain]. *)
Record Chain := { chain_llm : ZhipuaiLLM; chain_retriever : Retriever }.

Record ZhipuQAChain := {
  model_name : str;
  temperature : float;
  top_k : Z;
  persist_directory : str;
  chat_history : list Turn;
  chain : Chain
}.

Definition set_chat_history (self : ZhipuQAChain) (h : list Turn) : ZhipuQAChain :=
  {| model_name := model_name self; temperature := temperature self;
     top_k := top_k self; persist_directory := persist_directory self;
     chat_history := h; chain := chain self |}.

(** [self.temperature = t] and [self.top_k = k]: plain attribute stores. *)
Definition set_temperature (self : ZhipuQAChain) (t : float) : ZhipuQAChain :=
  {| model_name := model_name self; temperature := t;
     top_k := top_k self; persist_directory := persist_directory self;
     chat_history := chat_history self; chain := chain self |}.

Definition set_top_k (self : ZhipuQAChain) (k : Z) : ZhipuQAChain :=
  {| model_name := model_name self; temperature := temperature self;
     top_k := k; persist_directory := persist_directory self;
     chat_history := chat_history self; chain := chain self |}.

(** [_build_chain]: the model and the retriever are created here, from the
    attributes as they are at this moment. *)
Definition _build_chain (model_name : str) (temperature : float) (top_k : Z)
    (persist_directory : str) : Chain :=
  {| chain_llm := {| llm_model_name := model_name; llm_temperature := temperature |};
     chain_retriever := {| retr_persist_directory := persist_directory;
                           retr_k := top_k |} |}.

(** [__init__]; [None] for [chat_history] gives a fresh empty list. *)
Definition __init__ (model_name : str) (temperature : float) (top_k : Z)
    (persist_directory : str) (chat_history : option (list Turn)) : ZhipuQAChain :=
  {| model_name := model_name; temperature := temperature; top_k := top_k;
     persist_directory := persist_directory;
     chat_history := match chat_history with Some h => h | None => [] end;
     chain := _build_chain model_name temperature top_k persist_directory |}.

(** [clear_history] *)
Definition clear_history (self : ZhipuQAChain) : ZhipuQAChain * bool :=
  (set_chat_history self [], true).

(** [truncate_history]: the new object and the returned list. *)
Definition truncate_history (self : ZhipuQAChain) (max_length : Z)
  : outcome (ZhipuQAChain * list Turn) :=
  let self' :=
    if (Z.of_nat (length (chat_history self)) >? max_length)%Z
    then set_chat_history self (slice_from (- max_length) (chat_history self))
    else self in
  Returned (self', chat_history self').

(** ** The chain built by [_build_chain] *)

(** How a lazy stream ends once its items are used up: normally, or by an
    exception of the provider behind it. *)
Inductive stream_end :=
| StreamExhausted
| StreamRaises (e : exn).

(** The dict given to [self.chain.stream]; [x.get("chat_history", False)]
    also covers a dict without that key. *)
Record chain_input := {
  x_input : str;
  x_chat_history : option (list message)
}.

(** The values the chain's output dicts hold. *)
Inductive value :=
| VStr (s : str)
| VMessages (l : list message)
| VDocs (l : list Document).

(** One streamed dict, as its items in insertion order. *)
Definition chunk := list (string * value).

Fixpoint dict_get (key : string) (d : chunk) : option value :=
  match d with
  | [] => None
  | (k, v) :: d' => if String.eqb k key then Some v else dict_get key d'
  end.

(** What [self.chain.stream(...)] delivers: the dicts, then the end. *)
Record response := {
  resp_chunks : list chunk;
  resp_end : stream_end
}.

(** The calls the chain makes to its collaborators. *)
Inductive provider_call :=
| Condense (llm : ZhipuaiLLM) (prompt : list message)
| Retrieve (retriever : Retriever) (query : str)
| Generate (llm : ZhipuaiLLM) (prompt : list message).

Definition is_condense (c : provider_call) : bool :=
  match c with Condense _ _ => true | _ => false end.
Definition is_retrieve (c : provider_call) : bool :=
  match c with Retrieve _ _ => true | _ => false end.
Definition is_generate (c : provider_call) : bool :=
  match c with Generate _ _ => true | _ => false end.

(** A computation that calls providers: the calls made, in order, and how it
    ended. *)
Definition traced (A : Type) := (list provider_call * outcome A)%type.

Definition ret {A} (a : A) : traced A := ([], Returned a).

Definition bind {A B} (m : traced A) (k : A -> traced B) : traced B :=
  match m with
  | (calls, Returned a) => let '(calls', r) := k a in (calls ++ calls', r)
  | (calls, Raised e) => (calls, Raised e)
  end.

Notation "x <- m ;; k" := (bind m (fun x => k))
  (at level 61, m at next level, right associativity).

Definition condense_question_system_template : str :=
  lit "请根据聊天记录总结用户最近的问题，如果没有多余的聊天记录则返回用户的问题。".

Definition system_prompt : str :=
  lit "你是一个问答任务的助手。 请使用检索到的上下文片段回答这个问题。 如果你不知道答案就说不知道。 请使用简洁的话语回答用户。"
  ++ [10; 10]%N.

Definition placeholder (x : chain_input) : list message :=
  match x_chat_history x with Some h => h | None => [] end.

(** [condense_question_prompt] filled in with [x]. *)
Definition condense_question_prompt (x : chain_input) : list message :=
  [("system"%string, condense_question_system_template)]
    ++ placeholder x ++ [("human"%string, x_input x)].

(** [combine_docs]: the page contents joined by a blank line. *)
Definition combine_docs (docs : list Document) : str :=
  join [10; 10]%N (map page_content docs).

(** [qa_prompt] filled in with [x] and the combined context. *)
Definition qa_prompt (x : chain_input) (context : str) : list message :=
  [("system"%string, system_prompt ++ context)]
    ++ placeholder x ++ [("human"%string, x_input x)].

Section Providers.

(** The chat model behind [ZhipuaiLLM]: the text fragments it emits for a
    prompt and how the emission ends. *)
Variable chat_model : ZhipuaiLLM -> list message -> list str * stream_end.

(** The vector store behind the retriever. *)
Variable vector_search : Retriever -> str -> outcome (list Document).

(** [condense_question_prompt | llm | StrOutputParser()]: the retriever
    that follows needs the whole text. *)
Definition condense (c : Chain) (x : chain_input) : traced str :=
  let prompt := condense_question_prompt x in
  ([Condense (chain_llm c) prompt],
   match chat_model (chain_llm c) prompt with
   | (frags, StreamExhausted) => Returned (concat frags)
   | (_, StreamRaises e) => Raised e
   end).

Definition retrieve (c : Chain) (query : str) : traced (list Document) :=
  ([Retrieve (chain_retriever c) query],
   vector_search (chain_retriever c) query).

(** The [RunnableBranch]: [not x.get("chat_history", False)] selects the
    first runnable, otherwise the default one runs. *)
Definition retrieve_docs (c : Chain) (x : chain_input) : traced (list Document) :=
  if negb (truthy (placeholder x))
  then retrieve c (x_input x)
  else (query <- condense c x ;; retrieve c query).

Definition passthrough (x : chain_input) : chunk :=
  ("input"%string, VStr (x_input x))
    :: match x_chat_history x with
       | Some h => [("chat_history"%string, VMessages h)]
       | None => []
       end.

(** [RunnablePassthrough().assign(context=retrieve_docs).assign(answer=qa_chain)]
    run as a stream: the calls it makes when it is drained, and what it
    delivers. *)
Definition chain_stream (c : Chain) (x : chain_input)
  : list provider_call * response :=
  match retrieve_docs c x with
  | (calls, Raised e) =>
      (calls, {| resp_chunks := [passthrough x]; resp_end := StreamRaises e |})
  | (calls, Returned docs) =>
      let prompt := qa_prompt x (combine_docs docs) in
      let '(frags, fin) := chat_model (chain_llm c) prompt in
      (calls ++ [Generate (chain_llm c) prompt],
       {| resp_chunks :=
            passthrough x :: [("context"%string, VDocs docs)]
              :: map (fun f => [("answer"%string, VStr f)]) frags;
          resp_end := fin |})
  end.

(** ** [stream_answer], a generator *)

(** The part of the world the generator works on: the object, and the
    runs of [self.chain.stream] started so far (which chain, on which
    dict). *)
Record world := {
  self_ : ZhipuQAChain;
  chain_streams : list (Chain * chain_input)
}.

(** A generator object made by [stream_answer(question)]. *)
Inductive generator :=
| GenCreated (question : str)
| GenSuspended (question : str) (rest : list chunk) (fin : stream_end)
               (full_answer : str)
| GenFinished.

(** What a call of [next] gives back to the consumer. *)
Inductive sent :=
| Yield (fragment : str)
| StopIteration
| Raise (e : exn).

(** Calling the generator function runs none of its body. *)
Definition stream_answer (question : str) : generator := GenCreated question.

(** Lines 105-108. *)
Definition formatted_history (h : list Turn) : list message :=
  flat_map (fun t => [("human"%string, fst t); ("ai"%string, snd t)]) h.

(** Line 122: [self.chat_history.append((question, full_answer))]. *)
Definition record_turn (w : world) (question full_answer : str) : world :=
  {| self_ := set_chat_history (self_ w)
                (chat_history (self_ w) ++ [(question, full_answer)]);
     chain_streams := chain_streams w |}.

(** The [for res in response] loop from where it stands, up to the next
    [yield], the end of the function or an exception. *)
Fixpoint resume (w : world) (question : str) (rest : list chunk)
    (fin : stream_end) (full_answer : str) : world * generator * sent :=
  match rest with
  | [] =>
      match fin with
      | StreamExhausted =>
          (record_turn w question full_answer, GenFinished, StopIteration)
      | StreamRaises e => (w, GenFinished, Raise e)
      end
  | res :: rest' =>
      match dict_get "answer" res with
      | None => resume w question rest' fin full_answer
      | Some (VStr a) =>
          (w, GenSuspended question rest' fin (full_answer ++ a), Yield a)
      | Some _ =>
          (w, GenFinished, Raise (Exc "TypeError" []))
      end
  end.

(** Lines 105-113: the dict [self.chain.stream] is called with. *)
Definition stream_input (self : ZhipuQAChain) (question : str) : chain_input :=
  {| x_input := question;
     x_chat_history := Some (formatted_history (chat_history self)) |}.

(** The world once [self.chain.stream] has been called for [question]. *)
Definition start_stream (w : world) (question : str) : world :=
  {| self_ := self_ w;
     chain_streams :=
       chain_streams w ++ [(chain (self_ w), stream_input (self_ w) question)] |}.

(** [next(gen)] *)
Definition gen_next (w : world) (g : generator) : world * generator * sent :=
  match g with
  | GenCreated question =>
      if negb (truthy (strip question)) then (w, GenFinished, StopIteration)
      else
        let response :=
          snd (chain_stream (chain (self_ w)) (stream_input (self_ w) question)) in
        resume (start_stream w question)
               question (resp_chunks response) (resp_end response) []
  | GenSuspended question rest fin full_answer =>
      resume w question rest fin full_answer
  | GenFinished => (w, GenFinished, StopIteration)
  end.

(** [gen.close()]: [GeneratorExit] is raised at the [yield] the generator
    is parked at; the function has no handler, so nothing more of it runs. *)
Definition gen_close (w : world) (g : generator) : world * generator :=
  (w, GenFinished).

(** What a consumer saw: the fragments received, and how consumption
    stopped ([None]: the consumer stopped asking while the generator was
    still yielding). *)
Record consumed := {
  after : world;
  gen_after : generator;
  fragments : list str;
  stopped : option sent
}.

(** The consumer calls [next] up to [n] times, stopping at the first
    answer that is not a fragment. *)
Fixpoint pull (n : nat) (w : world) (g : generator) : consumed :=
  match n with
  | O => {| after := w; gen_after := g; fragments := []; stopped := None |}
  | S n' =>
      match gen_next w g with
      | (w', g', Yield a) =>
          let r := pull n' w' g' in
          {| after := after r; gen_after := gen_after r;
             fragments := a :: fragments r; stopped := stopped r |}
      | (w', g', s) =>
          {| after := w'; gen_after := g'; fragments := []; stopped := Some s |}
      end
  end.

(** Two worlds that differ at most in the attributes [stream_answer] never
    reads. *)
Definition same_run (w w' : world) : Prop :=
  chain (self_ w) = chain (self_ w')
  /\ chat_history (self_ w) = chat_history (self_ w')
  /\ chain_streams w = chain_streams w'.

(** The values under the key ["answer"] in a run of dicts, in order. *)
Fixpoint answers (rest : list chunk) : list str :=
  match rest with
  | [] => []
  | res :: rest' =>
      match dict_get "answer" res with
      | Some (VStr a) => a :: answers rest'
      | _ => answers rest'
      end
  end.

(** Every ["answer"] in the dicts is a [str]. *)
Definition str_answers (rest : list chunk) : Prop :=
  forall res v, In res rest -> dict_get "answer" res = Some v ->
                exists a, v = VStr a.

(** The provider calls of the chain runs started so far, each run counted
    as drained (a run cancelled midway makes a prefix of its calls). *)
Definition provider_calls (w : world) : list provider_call :=
  flat_map (fun cx => fst (chain_stream (fst cx) (snd cx))) (chain_streams w).

End Providers.

End QAChain.

(* ================================================================== *)
(** * app.py *)
(* ================================================================== *)

Module App.

Import QAChain.

(** Lines 11-15: the object kept in the session state. *)
Definition new_session : ZhipuQAChain :=
  __init__ (lit "glm-4-plus") 0x1.6666666666666p-1%float 4 (lit "chroma2") None.

(** Lines 42-45, with the values the two sliders returned. *)
Definition update_config (qa_chain : ZhipuQAChain) (temperature : float)
    (top_k : Z) : ZhipuQAChain :=
  let qa1 :=
    if negb (PrimFloat.eqb temperature (QAChain.temperature qa_chain))
    then set_temperature qa_chain temperature else qa_chain in
  if negb (top_k =? QAChain.top_k qa1)%Z then set_top_k qa1 top_k else qa1.

End App.

(* ================================================================== *)
(** * create_db.py *)
(* ================================================================== *)

Module CreateDb.

Import QAChain.

Inductive loader_class :=
| PyMuPDFLoader
| UnstructuredMarkdownLoader
| UnstructuredFileLoader
| UnstructuredWordDocumentLoader.

Record Loader := { loader_cls : loader_class; file_path : str }.

(** One record written through [logger]. *)
Inductive log_record :=
| LogInfo (msg : str)
| LogError (msg : str).

(** A computation that logs: the records written, and how it ended. *)
Definition logged (A : Type) := (list log_record * outcome A)%type.

Definition supported : list str :=
  [lit "pdf"; lit "md"; lit "txt"; lit "docx"].

(** [str(e)] *)
Definition exn_str (e : exn) : str :=
  match e with Exc _ msg => msg | BaseExc _ => [] end.

Definition added_msg (cls : loader_class) (file_path : str) : str :=
  match cls with
  | PyMuPDFLoader => lit "添加PDF加载器："
  | UnstructuredMarkdownLoader => lit "添加Markdown加载器："
  | UnstructuredFileLoader => lit "添加TXT加载器："
  | UnstructuredWordDocumentLoader => lit "添加DOCX加载器："
  end ++ file_path.

Definition create_failed_msg (file_path : str) (e : exn) : str :=
  lit "创建加载器失败 " ++ file_path ++ lit "：" ++ exn_str e.

Definition loaded_msg (file_path : str) : str :=
  lit "已加载文件：" ++ file_path.

Definition load_failed_msg (file_path : str) (e : exn) : str :=
  lit "加载文件失败 " ++ file_path ++ lit "：" ++ exn_str e.

Section Loading.

(** The Unicode lower-case table behind [str.lower]. *)
Variable unicode_lower : char -> str.

(** A loader's constructor: [None] when the object is made, the exception
    otherwise. *)
Variable new_loader : loader_class -> str -> option exn.

(** [loader.load()] *)
Variable loader_load : Loader -> outcome (list Document).

(** [name.split('.')[-1].lower()] *)
Definition ext_of (name : str) : str := lower unicode_lower (last_part 46%N name).

(** Lines 64-68 over what [os.walk(folder_path)] yields, a list of
    [(root, dirs, files)]. *)
Definition collect_paths (walk : list (str * list str * list str)) : list str :=
  flat_map (fun entry =>
              let '(root, _, files) := entry in
              flat_map (fun file =>
                          if str_in (ext_of file) supported
                          then [path_join root file] else [])
                       files)
           walk.

(** The [if]/[elif] chain of lines 75-86. *)
Definition loader_class_of (file_ext : str) : option loader_class :=
  if str_eqb file_ext (lit "pdf") then Some PyMuPDFLoader
  else if str_eqb file_ext (lit "md") then Some UnstructuredMarkdownLoader
  else if str_eqb file_ext (lit "txt") then Some UnstructuredFileLoader
  else if str_eqb file_ext (lit "docx") then Some UnstructuredWordDocumentLoader
  else None.

(** One round of the loop of lines 72-88: the loaders it appends. *)
Definition add_loader (path : str) : logged (list Loader) :=
  match loader_class_of (ext_of path) with
  | None => ([], Returned [])
  | Some cls =>
      match new_loader cls path with
      | None =>
          ([LogInfo (added_msg cls path)],
           Returned [{| loader_cls := cls; file_path := path |}])
      | Some (Exc c m) =>
          ([LogError (create_failed_msg path (Exc c m))], Returned [])
      | Some (BaseExc c) => ([], Raised (BaseExc c))
      end
  end.

(** One round of the loop of lines 92-97: the documents it extends [docs]
    with. *)
Definition load_one (loader : Loader) : logged (list Document) :=
  match loader_load loader with
  | Returned ds => ([LogInfo (loaded_msg (file_path loader))], Returned ds)
  | Raised (Exc c m) =>
      ([LogError (load_failed_msg (file_path loader) (Exc c m))], Returned [])
  | Raised (BaseExc c) => ([], Raised (BaseExc c))
  end.

(** A [for] loop whose rounds each append to one list. *)
Fixpoint for_each {A B} (round : A -> logged (list B)) (items : list A)
  : logged (list B) :=
  match items with
  | [] => ([], Returned [])
  | a :: items' =>
      match round a with
      | (log1, Raised e) => (log1, Raised e)
      | (log1, Returned bs) =>
          match for_each round items' with
          | (log2, Raised e) => (log1 ++ log2, Raised e)
          | (log2, Returned bs') => (log1 ++ log2, Returned (bs ++ bs'))
          end
      end
  end.

(** What a round leaves in the list when it ends normally. *)
Definition payload {B} (r : logged (list B)) : list B :=
  match snd r with Returned bs => bs | Raised _ => [] end.

(** [load_documents], given what [os.walk(folder_path)] yields. *)
Definition load_documents (walk : list (str * list str * list str))
  : logged (list Document) :=
  let file_paths := collect_paths walk in
  match for_each add_loader file_paths with
  | (log1, Raised e) => (log1, Raised e)
  | (log1, Returned loaders) =>
      match for_each load_one loaders with
      | (log2, r) => (log1 ++ log2, r)
      end
  end.

(** What one collected path adds to the result when nothing escapes the
    two [try] blocks. *)
Definition contribution (path : str) : list Document :=
  match loader_class_of (ext_of path) with
  | None => []
  | Some cls =>
      match new_loader cls path with
      | Some _ => []
      | None =>
          match loader_load {| loader_cls := cls; file_path := path |} with
          | Returned ds => ds
          | Raised _ => []
          end
      end
  end.

End Loading.

(** ** [process_and_split_docs] *)

(** The class [\u4e00-\u9fff] of the pattern. *)
Definition is_cjk (c : char) : bool := ((19968 <=? c) && (c <=? 40959))%N.

(** [m.group(0).replace('\n', '')] *)
Definition drop_newlines (s : str) : str := replace_char 10%N [] s.

(** The [re.sub] of lines 108-110: the matches of
    [[^\u4e00-\u9fff](\n)[^\u4e00-\u9fff]] are taken from the left and do
    not overlap; each is replaced by itself without its line feeds. *)
Fixpoint join_broken_lines (s : str) : str :=
  match s with
  | [] => []
  | a :: tl =>
      match tl with
      | b :: c :: rest =>
          if (negb (is_cjk a) && (b =? 10)%N && negb (is_cjk c))
          then drop_newlines [a; b; c] ++ join_broken_lines rest
          else a :: join_broken_lines tl
      | _ => a :: join_broken_lines tl
      end
  end.

(** Lines 108-111 on one [page_content]: the [re.sub], then the bullets
    (U+2022) removed, then doubled spaces replaced by one. *)
Definition clean_content (s : str) : str :=
  replace_pair 32%N 32%N [32%N] (replace_char 8226%N [] (join_broken_lines s)).

(** The three characters the cleaning may take away: line feed, space and
    bullet. *)
Definition is_layout (c : char) : bool :=
  ((c =? 10) || (c =? 32) || (c =? 8226))%N.

Definition clean_doc (doc : Document) : Document :=
  {| page_content := clean_content (page_content doc); source := source doc |}.

Definition split_done_msg (n : nat) : str :=
  lit "文档分块完成，共生成 " ++ str_of_nat n ++ lit " 个文本块".

Definition VECTOR_DB_PATH : str := lit "data_base/vector_db/chroma2".

Definition db_built_msg (persist_dir : str) : str :=
  lit "向量数据库构建完成！存储路径：" ++ persist_dir.

(** The levels [main] logs at, and a record with its level. *)
Inductive level := INFO | WARNING | ERROR.

Definition entry := (level * str)%type.

Definition entry_of (r : log_record) : entry :=
  match r with
  | LogInfo msg => (INFO, msg)
  | LogError msg => (ERROR, msg)
  end.

(** The library calls the script makes once the documents are loaded. *)
Inductive build_call :=
| SplitDocuments (docs : list Document)
| FromDocuments (split_docs : list Document) (persist_dir : str).

(** How the script ends: it falls off its end, [exit(code)] is called, or an
    exception leaves it. *)
Inductive ending :=
| Completed
| SystemExit (code : Z)
| Uncaught (e : exn).

Record run := {
  run_log : list entry;
  run_calls : list build_call;
  run_end : ending
}.

Section Build.

Variable unicode_lower : char -> str.
Variable new_loader : loader_class -> str -> option exn.
Variable loader_load : Loader -> outcome (list Document).

(** [RecursiveCharacterTextSplitter(chunk_size=500, chunk_overlap=50,
    length_function=len).split_documents] *)
Variable split_documents : list Document -> outcome (list Document).

(** The library part of [build_vector_db]: [ZhipuAIEmbeddings()],
    [Chroma.from_documents(...)] and [vectordb.persist()], any of which may
    raise. *)
Variable from_documents : list Document -> str -> outcome unit.

(** [process_and_split_docs] *)
Definition process_and_split_docs (docs : list Document)
  : logged (list Document) :=
  match split_documents (map clean_doc docs) with
  | Returned split_docs =>
      ([LogInfo (split_done_msg (length split_docs))], Returned split_docs)
  | Raised e => ([], Raised e)
  end.

(** [build_vector_db] *)
Definition build_vector_db (split_docs : list Document) (persist_dir : str)
  : logged unit :=
  match from_documents split_docs persist_dir with
  | Returned tt => ([LogInfo (db_built_msg persist_dir)], Returned tt)
  | Raised e => ([], Raised e)
  end.

(** The [except Exception] of line 163; anything else leaves the script. *)
Definition handle (log : list entry) (calls : list build_call) (e : exn) : run :=
  match e with
  | Exc _ _ =>
      {| run_log := log ++ [(ERROR, lit "生成数据库失败：" ++ exn_str e)];
         run_calls := calls; run_end := Completed |}
  | BaseExc _ => {| run_log := log; run_calls := calls; run_end := Uncaught e |}
  end.

(** The script (lines 146-164), given what [os.walk(KNOWLEDGE_DB_PATH)]
    yields. *)
Definition main (walk : list (str * list str * list str)) : run :=
  let log0 := [(INFO, lit "开始加载知识库文档...")] in
  match load_documents unicode_lower new_loader loader_load walk with
  | (l1, Raised e) => handle (log0 ++ map entry_of l1) [] e
  | (l1, Returned raw_docs) =>
      let log1 := log0 ++ map entry_of l1 in
      if negb (truthy raw_docs)
      then {| run_log :=
                log1 ++ [(WARNING,
                          lit "未找到任何PDF/Markdown/TXT/DOCX文档，请检查KNOWLEDGE_DB_PATH路径！")];
              run_calls := []; run_end := SystemExit 1 |}
      else
        let calls1 := [SplitDocuments (map clean_doc raw_docs)] in
        match process_and_split_docs raw_docs with
        | (l2, Raised e) => handle (log1 ++ map entry_of l2) calls1 e
        | (l2, Returned split_docs) =>
            let log2 := log1 ++ map entry_of l2 in
            let calls2 := calls1 ++ [FromDocuments split_docs VECTOR_DB_PATH] in
            match build_vector_db split_docs VECTOR_DB_PATH with
            | (l3, Raised e) => handle (log2 ++ map entry_of l3) calls2 e
            | (l3, Returned _) =>
                {| run_log :=
                     log2 ++ map entry_of l3
                       ++ [(INFO, lit "新数据库生成成功！可直接用于RAG检索")];
                   run_calls := calls2; run_end := Completed |}
            end
        end
  end.

End Build.

End CreateDb.

(* ================================================================== *)
(** * Stand-ins for the collaborators, used to run the code *)
(* ================================================================== *)

Module Stub.

Import QAChain CreateDb.

Definition paris : Document :=
  {| page_content := lit "Paris is the capital of France.";
     source := lit "geo.txt" |}.

(** A chat model that condenses to a fixed query and answers in two
    fragments. *)
Definition chat_model (llm : ZhipuaiLLM) (prompt : list message)
  : list str * stream_end :=
  ([lit "Par"; lit "is."], StreamExhausted).

(** A chat model whose stream ends at once. *)
Definition silent_model (llm : ZhipuaiLLM) (prompt : list message)
  : list str * stream_end :=
  ([], StreamExhausted).

(** A chat model whose connection breaks after one fragment. *)
Definition broken_model (llm : ZhipuaiLLM) (prompt : list message)
  : list str * stream_end :=
  ([lit "Par"], StreamRaises (Exc "ConnectionError" (lit "reset"))).

Definition vector_search (r : Retriever) (query : str)
  : outcome (list Document) :=
  Returned [paris].

Definition question : str := lit "What is the capital of France?".

Definition fresh : world :=
  {| self_ := App.new_session; chain_streams := [] |}.

Definition two_turns : list Turn :=
  [(lit "q0", lit "a0"); (lit "q1", lit "a1")].

Definition six_turns : list Turn :=
  [(lit "q0", lit "a0"); (lit "q1", lit "a1"); (lit "q2", lit "a2");
   (lit "q3", lit "a3"); (lit "q4", lit "a4"); (lit "q5", lit "a5")].

Definition talked : world :=
  {| self_ := set_chat_history App.new_session two_turns;
     chain_streams := [] |}.

(** A folder with one file the loaders cannot read and one of a type that
    is not ingested. *)
Definition walk : list (str * list str * list str) :=
  [(lit "kb", [lit "sub"], [lit "a.PDF"; lit "notes.md"; lit "logo.png"]);
   (lit "kb/sub", [], [lit "b.txt"])].

Definition unicode_lower (c : char) : str := [c].

Definition new_loader (cls : loader_class) (path : str) : option exn := None.

Definition loader_load (l : Loader) : outcome (list Document) :=
  if str_eqb (file_path l) (lit "kb/notes.md")
  then Raised (Exc "ValueError" (lit "bad file"))
  else Returned [{| page_content := lit "text"; source := file_path l |}].

(** A splitter that cuts nothing, one that fails, and a store that takes
    everything. *)
Definition split_documents (docs : list Document) : outcome (list Document) :=
  Returned docs.

Definition failing_split (docs : list Document) : outcome (list Document) :=
  Raised (Exc "ValueError" (lit "cannot split")).

Definition from_documents (docs : list Document) (persist_dir : str)
  : outcome unit :=
  Returned tt.

(** A loader that is interrupted on the second file. *)
Definition interrupted_load (l : Loader) : outcome (list Document) :=
  if str_eqb (file_path l) (lit "kb/notes.md")
  then Raised (BaseExc "KeyboardInterrupt")
  else Returned [{| page_content := lit "text"; source := file_path l |}].

End Stub.

(* ================================================================== *)
(** * Facts about the built-ins *)
(* ================================================================== *)

Module PyFacts.

Lemma lstrip_blank (s : str) : forallb isspace s = true -> lstrip s = [].
Proof.
  induction s as [|c s IH]; simpl; [reflexivity|].
  intros H. apply andb_prop in H as [Hc Hs]. rewrite Hc. auto.
Qed.

Lemma lstrip_head (s : str) c t : lstrip s = c :: t -> isspace c = false.
Proof.
  induction s as [|d s IH]; simpl; [discriminate|].
  destruct (isspace d) eqn:E; [exact IH|].
  intros H. injection H as -> _. exact E.
Qed.

Lemma lstrip_nil_blank (s : str) : lstrip s = [] -> forallb isspace s = true.
Proof.
  induction s as [|c s IH]; simpl; [reflexivity|].
  destruct (isspace c); [auto | discriminate].
Qed.

Lemma forallb_rev {A} (f : A -> bool) (l : list A) :
  forallb f (rev l) = forallb f l.
Proof.
  induction l as [|a l IH]; simpl; [reflexivity|].
  rewrite forallb_app, IH. simpl. rewrite andb_true_r. apply andb_comm.
Qed.

(** [not question.strip()] holds exactly for the strings made of white
    space only (the empty one among them). *)
Lemma strip_nil_iff (s : str) : strip s = [] <-> forallb isspace s = true.
Proof.
  unfold strip, rstrip. split.
  - intros H.
    assert (H1 : lstrip (rev (lstrip s)) = []).
    { destruct (lstrip (rev (lstrip s))) as [|c t]; [reflexivity|].
      simpl in H. destruct (rev t); discriminate. }
    apply lstrip_nil_blank in H1. rewrite forallb_rev in H1.
    apply lstrip_nil_blank.
    destruct (lstrip s) as [|c t] eqn:E; [reflexivity|].
    apply lstrip_head in E. simpl in H1. rewrite E in H1. discriminate.
  - intros H. rewrite (lstrip_blank s H). reflexivity.
Qed.

Lemma slice_from_neg {A} (n : Z) (l : list A) :
  (1 <= n)%Z -> slice_from (- n) l = skipn (length l - Z.to_nat n) l.
Proof.
  intros Hn. unfold slice_from.
  replace (- n <? 0)%Z with true by (symmetry; apply Z.ltb_lt; lia).
  f_equal. lia.
Qed.

Lemma slice_from_suffix {A} (start : Z) (l : list A) :
  exists dropped, l = dropped ++ slice_from start l.
Proof.
  unfold slice_from.
  exists (firstn (Z.to_nat (if (start <? 0)%Z
                            then Z.max (Z.of_nat (length l) + start) 0
                            else Z.min start (Z.of_nat (length l)))) l).
  symmetry. apply firstn_skipn.
Qed.

End PyFacts.

(* ================================================================== *)
(** * History management ([truncate_history]) *)
(* ================================================================== *)

Module HistorySpec.

Import QAChain PyFacts.

(** C2.  For a bound [N >= 1], [truncate_history] returns normally, leaves
    [min (len H) N] turns, and these are the [N] most recent turns of [H] in
    their order: [H] is some dropped prefix followed by what is kept.  When
    [len H <= N] the object is untouched.  The other attributes never
    change. *)
Theorem truncate_history_keeps_most_recent (self : ZhipuQAChain) (N : Z) :
  (1 <= N)%Z ->
  exists self',
    truncate_history self N = Returned (self', chat_history self')
    /\ length (chat_history self') = Nat.min (length (chat_history self)) (Z.to_nat N)
    /\ chat_history self'
       = skipn (length (chat_history self) - Z.to_nat N) (chat_history self)
    /\ (exists dropped, chat_history self = dropped ++ chat_history self')
    /\ (length (chat_history self) <= Z.to_nat N -> self' = self)
    /\ set_chat_history self' (chat_history self) = set_chat_history self (chat_history self).
Proof.
  intros HN. unfold truncate_history.
  destruct (Z.of_nat (length (chat_history self)) >? N)%Z eqn:E.
  - eexists. split; [reflexivity|].
    apply Z.gtb_lt in E.
    simpl. rewrite (slice_from_neg N _ HN).
    repeat split.
    + rewrite length_skipn. lia.
    + exists (firstn (length (chat_history self) - Z.to_nat N) (chat_history self)).
      symmetry. apply firstn_skipn.
    + intros Hle. lia.
  - exists self. split; [reflexivity|].
    assert (Hle : length (chat_history self) <= Z.to_nat N).
    { destruct (Z.gtb_spec (Z.of_nat (length (chat_history self))) N); [discriminate | lia]. }
    repeat split.
    + lia.
    + replace (length (chat_history self) - Z.to_nat N) with 0 by lia. reflexivity.
    + exists []. reflexivity.
Qed.

Lemma truncate_history_keeps_most_recent_witness :
  exists self',
    truncate_history (set_chat_history App.new_session Stub.six_turns) 5
    = Returned (self', chat_history self')
    /\ length (chat_history self') = 5
    /\ chat_history self' = skipn 1 Stub.six_turns
    /\ (exists dropped, Stub.six_turns = dropped ++ chat_history self')
    /\ (6 <= 5 -> self' = set_chat_history App.new_session Stub.six_turns)
    /\ set_chat_history self' Stub.six_turns
       = set_chat_history (set_chat_history App.new_session Stub.six_turns)
           Stub.six_turns.
Proof.
  apply (truncate_history_keeps_most_recent
           (set_chat_history App.new_session Stub.six_turns) 5).
  lia.
Defined.


(** The same with a negative bound; here the two oldest turns go. *)
Example truncate_history_negative_returns :
  exists self',
    truncate_history (set_chat_history App.new_session Stub.six_turns) (-2)
    = Returned (self', skipn 2 Stub.six_turns).
Proof.
  eexists. reflexivity.
Qed.



End HistorySpec.

(* ================================================================== *)
(** * The answer stream ([stream_answer]) *)
(* ================================================================== *)

Module StreamSpec.

Import QAChain PyFacts.

Section Run.

Variable chat_model : ZhipuaiLLM -> list message -> list str * stream_end.
Variable vector_search : Retriever -> str -> outcome (list Document).

Local Abbreviation next := (gen_next chat_model vector_search).
Local Abbreviation pulls := (pull chat_model vector_search).
Local Abbreviation stream := (chain_stream chat_model vector_search).

(** One resumption either parks at a [yield] further down the stream, or
    falls off the loop and records the turn, or lets an exception out. *)
Lemma resume_cases (rest : list chunk) (w : world) (q : str)
    (fin : stream_end) (full : str) :
  (exists a rest',
      resume w q rest fin full
      = (w, GenSuspended q rest' fin (full ++ a), Yield a)
      /\ length rest' < length rest)
  \/ (resume w q rest fin full = (record_turn w q full, GenFinished, StopIteration)
      /\ fin = StreamExhausted)
  \/ (exists e, resume w q rest fin full = (w, GenFinished, Raise e)).
Proof.
  induction rest as [|res rest IH]; simpl.
  - destruct fin as [|e].
    + right; left. split; reflexivity.
    + right; right. exists e. reflexivity.
  - destruct (dict_get "answer" res) as [[a|l|l]|].
    + left. exists a, rest. split; [reflexivity | lia].
    + right; right. eexists. reflexivity.
    + right; right. eexists. reflexivity.
    + destruct IH as [(a & rest' & E & Hlt) | [[E Hfin] | [e E]]].
      * left. exists a, rest'. split; [exact E | lia].
      * right; left. split; assumption.
      * right; right. exists e. exact E.
Qed.

(** What a consumer of a parked generator can see. *)
Lemma pull_suspended (n : nat) :
  forall w q rest fin full,
    let r := pulls n w (GenSuspended q rest fin full) in
    match stopped r with
    | None =>
        after r = w
        /\ exists rest', gen_after r
                         = GenSuspended q rest' fin (full ++ concat (fragments r))
    | Some StopIteration =>
        after r = record_turn w q (full ++ concat (fragments r))
        /\ gen_after r = GenFinished
    | Some (Raise e) => after r = w /\ gen_after r = GenFinished
    | Some (Yield _) => False
    end.
Proof.
  induction n as [|n IH]; intros w q rest fin full; simpl.
  - split; [reflexivity|]. exists rest. rewrite app_nil_r. reflexivity.
  - destruct (resume_cases rest w q fin full)
      as [(a & rest' & E & _) | [[E _] | [e E]]]; rewrite E; simpl.
    + specialize (IH w q rest' fin (full ++ a)). simpl in IH.
      destruct (stopped (pulls n w (GenSuspended q rest' fin (full ++ a))))
        as [[f| |e]|]; rewrite ?app_assoc; exact IH.
    + rewrite app_nil_r. split; reflexivity.
    + split; reflexivity.
Qed.

(** Asking more often than the stream has dicts reaches its end. *)
Lemma pull_suspended_stops (n : nat) :
  forall w q rest fin full,
    length rest < n ->
    stopped (pulls n w (GenSuspended q rest fin full)) <> None.
Proof.
  induction n as [|n IH]; intros w q rest fin full Hn; [lia|]. simpl.
  destruct (resume_cases rest w q fin full)
    as [(a & rest' & E & Hlt) | [[E _] | [e E]]]; rewrite E; simpl.
  - apply IH. lia.
  - discriminate.
  - discriminate.
Qed.

(** A stream of well-formed dicts that ends normally is drained to the
    turn being recorded, whatever its dicts hold. *)
Lemma pull_drains (rest : list chunk) :
  forall n w q full,
    str_answers rest ->
    length rest < n ->
    pulls n w (GenSuspended q rest StreamExhausted full)
    = {| after := record_turn w q (full ++ concat (answers rest));
         gen_after := GenFinished;
         fragments := answers rest;
         stopped := Some StopIteration |}.
Proof.
  induction rest as [|res rest IH]; intros n w q full Hstr Hn;
    (destruct n as [|n]; [simpl in Hn; lia|]).
  - simpl. rewrite app_nil_r. reflexivity.
  - assert (Hstr' : str_answers rest).
    { intros r v Hin. apply Hstr. right. exact Hin. }
    simpl in Hn. simpl.
    destruct (dict_get "answer" res) as [v|] eqn:E.
    + destruct (Hstr res v (or_introl eq_refl) E) as [a ->].
      simpl. rewrite (IH n w q (full ++ a) Hstr') by lia.
      simpl. rewrite app_assoc. reflexivity.
    + specialize (IH (S n) w q full Hstr'). simpl in IH. apply IH. lia.
Qed.

(** A question that passes the guard: the first [next] starts the chain
    and goes on as a parked generator would. *)
Lemma pull_created (n : nat) (w : world) (q : str) :
  strip q <> [] ->
  pulls (S n) w (stream_answer q)
  = let response := snd (stream (chain (self_ w)) (stream_input (self_ w) q)) in
    pulls (S n) (start_stream w q)
          (GenSuspended q (resp_chunks response) (resp_end response) []).
Proof.
  intros Hq. unfold stream_answer. simpl.
  destruct (strip q); [contradiction|]. reflexivity.
Qed.

Lemma pull_blank (n : nat) (w : world) (q : str) :
  strip q = [] ->
  pulls (S n) w (stream_answer q)
  = {| after := w; gen_after := GenFinished; fragments := [];
       stopped := Some StopIteration |}.
Proof.
  intros Hq. unfold stream_answer. simpl. rewrite Hq. reflexivity.
Qed.


(** C6, amended.  An empty question raises nothing: the function returns at
    its guard, so the first [next] already reports the end of the stream
    ([StopIteration]); no fragment is produced, the chain is not run (no
    provider call, no retry) and the object is as before. *)
Theorem empty_question_ends_without_error (w : world) (n : nat) :
  let r := pulls (S n) w (stream_answer []) in
  stopped r = Some StopIteration
  /\ (forall e, stopped r <> Some (Raise e))
  /\ fragments r = []
  /\ gen_after r = GenFinished
  /\ after r = w.
Proof.
  rewrite (pull_blank n w [] eq_refl). simpl.
  repeat split. discriminate.
Qed.

(** C7.  For an empty or white-space-only question [stream_answer] does
    nothing: no fragment is yielded, no exception raised, and the world is
    the same afterwards; the history is untouched and the chain is never
    started, so no provider is called. *)
Theorem blank_question_is_noop (w : world) (q : str) (n : nat) :
  forallb isspace q = true ->
  let r := pulls n w (stream_answer q) in
  fragments r = []
  /\ after r = w
  /\ chat_history (self_ (after r)) = chat_history (self_ w)
  /\ chain_streams (after r) = chain_streams w
  /\ provider_calls chat_model vector_search (after r)
     = provider_calls chat_model vector_search w
  /\ (forall e, stopped r <> Some (Raise e)).
Proof.
  intros Hq. apply strip_nil_iff in Hq.
  destruct n as [|n].
  - simpl. repeat split. discriminate.
  - rewrite (pull_blank n w q Hq). simpl. repeat split. discriminate.
Qed.

Lemma answers_map_answer (frags : list str) :
  answers (map (fun f => [("answer"%string, VStr f)]) frags) = frags.
Proof.
  induction frags as [|f frags IH]; simpl; [reflexivity|].
  rewrite IH. reflexivity.
Qed.

Lemma answers_none (rest : list chunk) :
  (forall res, In res rest -> dict_get "answer" res = None) ->
  answers rest = [].
Proof.
  induction rest as [|res rest IH]; simpl; intros H; [reflexivity|].
  rewrite (H res (or_introl eq_refl)). apply IH.
  intros r Hin. apply H. right. exact Hin.
Qed.

(** The dicts the chain delivers carry the model's fragments, each under
    ["answer"], and nothing else under that key. *)
Lemma chain_stream_answers (c : Chain) (x : chain_input) :
  let response := snd (stream c x) in
  str_answers (resp_chunks response)
  /\ (answers (resp_chunks response) = []
      \/ exists docs,
           answers (resp_chunks response)
           = fst (chat_model (chain_llm c) (qa_prompt x (combine_docs docs)))).
Proof.
  assert (Hp : dict_get "answer" (passthrough x) = None).
  { unfold passthrough. destruct (x_chat_history x); reflexivity. }
  unfold chain_stream.
  destruct (retrieve_docs chat_model vector_search c x) as [calls [docs|e]].
  - destruct (chat_model (chain_llm c) (qa_prompt x (combine_docs docs)))
      as [frags fin] eqn:E.
    cbn [snd resp_chunks]. split.
    + intros res v [<- | [<- | Hin]] Hget.
      * rewrite Hp in Hget. discriminate.
      * discriminate.
      * apply in_map_iff in Hin as (f & <- & _).
        simpl in Hget. injection Hget as <-. exists f. reflexivity.
    + right. exists docs. rewrite E.
      cbn [answers fst]. rewrite Hp. cbn [dict_get String.eqb Ascii.eqb Bool.eqb].
      apply answers_map_answer.
  - cbn [snd resp_chunks]. split.
    + intros res v [<- | []] Hget. rewrite Hp in Hget. discriminate.
    + left. cbn [answers]. rewrite Hp. reflexivity.
Qed.

(** C10.  When the question passes the guard and the chain's stream ends
    normally, running the generator to its end appends one turn whose answer
    is the join of the values found under ["answer"], and these values are
    the fragments that were yielded: dicts without that key (input, history,
    context) add nothing to either.  With no such dict at all the turn is
    still appended, with the empty string as its answer. *)
Theorem turn_recorded_without_answer_chunks (w : world) (q : str) (n : nat) :
  strip q <> [] ->
  let response := snd (stream (chain (self_ w)) (stream_input (self_ w) q)) in
  resp_end response = StreamExhausted ->
  length (resp_chunks response) < n ->
  let r := pulls n w (stream_answer q) in
  stopped r = Some StopIteration
  /\ fragments r = answers (resp_chunks response)
  /\ chat_history (self_ (after r))
     = chat_history (self_ w) ++ [(q, concat (answers (resp_chunks response)))]
  /\ ((forall res, In res (resp_chunks response) -> dict_get "answer" res = None) ->
      fragments r = []
      /\ chat_history (self_ (after r)) = chat_history (self_ w) ++ [(q, [])]).
Proof.
  intros Hq response Hend Hn.
  destruct n as [|n]; [lia|].
  rewrite pull_created by exact Hq. cbv zeta. fold response.
  rewrite Hend.
  rewrite pull_drains;
    [| exact (proj1 (chain_stream_answers (chain (self_ w)) (stream_input (self_ w) q)))
     | exact Hn].
  simpl. repeat split.
  - rewrite (answers_none _ H). reflexivity.
  - rewrite (answers_none _ H). reflexivity.
Qed.

End Run.


(** C6, as the claim has it, fails: the empty question gives the caller no
    exception. *)
Lemma empty_question_raises_nothing :
  ~ (exists e,
        stopped (pull Stub.chat_model Stub.vector_search 1 Stub.fresh
                   (stream_answer []))
        = Some (Raise e)).
Proof.
  intros [e H]. vm_compute in H. discriminate H.
Qed.

Lemma blank_question_is_noop_witness :
  let q := [32; 9; 10; 12288]%N in
  let r := pull Stub.chat_model Stub.vector_search 3 Stub.talked
             (stream_answer q) in
  forallb isspace q = true
  /\ fragments r = []
  /\ after r = Stub.talked
  /\ chat_history (self_ (after r)) = Stub.two_turns
  /\ chain_streams (after r) = []
  /\ provider_calls Stub.chat_model Stub.vector_search (after r) = []
  /\ (forall e, stopped r <> Some (Raise e)).
Proof.
  split; [reflexivity|].
  apply (blank_question_is_noop Stub.chat_model Stub.vector_search
           Stub.talked [32; 9; 10; 12288]%N 3).
  reflexivity.
Defined.

Lemma turn_recorded_without_answer_chunks_witness :
  let r := pull Stub.silent_model Stub.vector_search 3 Stub.fresh
             (stream_answer Stub.question) in
  stopped r = Some StopIteration
  /\ fragments r = []
  /\ chat_history (self_ (after r)) = [(Stub.question, [])].
Proof.
  destruct (turn_recorded_without_answer_chunks
              Stub.silent_model Stub.vector_search Stub.fresh Stub.question 3)
    as (H1 & H2 & H3 & H4).
  - vm_compute. discriminate.
  - reflexivity.
  - vm_compute. lia.
  - exact (conj H1 (conj H2 H3)).
Defined.

(** The code run on the stand-ins: a full answer, a consumer that stops
    after one fragment, and a connection that breaks. *)
Example paris_drained :
  let r := pull Stub.chat_model Stub.vector_search 5 Stub.fresh
             (stream_answer Stub.question) in
  stopped r = Some StopIteration
  /\ fragments r = [lit "Par"; lit "is."]
  /\ chat_history (self_ (after r)) = [(Stub.question, lit "Paris.")].
Proof.
  vm_compute. repeat split.
Qed.

Example paris_cancelled :
  let r := pull Stub.chat_model Stub.vector_search 1 Stub.fresh
             (stream_answer Stub.question) in
  stopped r = None
  /\ fragments r = [lit "Par"]
  /\ chat_history (self_ (fst (gen_close (after r) (gen_after r)))) = [].
Proof.
  vm_compute. repeat split.
Qed.

Example paris_broken :
  let r := pull Stub.broken_model Stub.vector_search 5 Stub.fresh
             (stream_answer Stub.question) in
  stopped r = Some (Raise (Exc "ConnectionError" (lit "reset")))
  /\ fragments r = [lit "Par"]
  /\ chat_history (self_ (after r)) = [].
Proof.
  vm_compute. repeat split.
Qed.

End StreamSpec.

(* ================================================================== *)
(** * The chain's calls to the providers ([_build_chain]) *)
(* ================================================================== *)

Module ChainSpec.

Import QAChain PyFacts.

Section Calls.

Variable chat_model : ZhipuaiLLM -> list message -> list str * stream_end.
Variable vector_search : Retriever -> str -> outcome (list Document).

Local Abbreviation pulls := (pull chat_model vector_search).
Local Abbreviation stream := (chain_stream chat_model vector_search).
Local Abbreviation calls_of := (provider_calls chat_model vector_search).

(** The first branch of [retrieve_docs]: the retriever is asked the input
    as it is, and the chat model is not called for it. *)
Lemma retrieve_docs_without_history (c : Chain) (x : chain_input) :
  placeholder x = [] ->
  retrieve_docs chat_model vector_search c x
  = retrieve vector_search c (x_input x).
Proof.
  intros H. unfold retrieve_docs. rewrite H. reflexivity.
Qed.

Lemma chain_stream_without_history (c : Chain) (x : chain_input) :
  placeholder x = [] ->
  filter is_condense (fst (stream c x)) = []
  /\ filter is_retrieve (fst (stream c x)) = [Retrieve (chain_retriever c) (x_input x)].
Proof.
  intros H. unfold chain_stream.
  rewrite (retrieve_docs_without_history c x H). unfold retrieve.
  destruct (vector_search (chain_retriever c) (x_input x)) as [docs|e].
  - destruct (chat_model (chain_llm c) (qa_prompt x (combine_docs docs))).
    split; reflexivity.
  - split; reflexivity.
Qed.

(** A consumer's [next]s start the chain at most once, on the dict built
    from the question and the history. *)
Lemma pull_chain_streams (w : world) (q : str) (n : nat) :
  let r := pulls n w (stream_answer q) in
  chain_streams (after r) = chain_streams w
  \/ (strip q <> []
      /\ chain_streams (after r)
         = chain_streams w ++ [(chain (self_ w), stream_input (self_ w) q)]).
Proof.
  destruct n as [|n]; [left; reflexivity|].
  destruct (strip q) as [|ch t] eqn:Hq.
  - left. rewrite (StreamSpec.pull_blank _ _ n w q Hq). reflexivity.
  - right. split; [discriminate|].
    rewrite StreamSpec.pull_created by (rewrite Hq; discriminate).
    cbv zeta.
    pose proof
      (StreamSpec.pull_suspended chat_model vector_search (S n) (start_stream w q) q
         (resp_chunks (snd (stream (chain (self_ w)) (stream_input (self_ w) q))))
         (resp_end (snd (stream (chain (self_ w)) (stream_input (self_ w) q))))
         []) as H.
    cbv zeta in H.
    destruct (stopped
                (pulls (S n) (start_stream w q)
                   (GenSuspended q
                      (resp_chunks (snd (stream (chain (self_ w)) (stream_input (self_ w) q))))
                      (resp_end (snd (stream (chain (self_ w)) (stream_input (self_ w) q))))
                      []))) as [[f| |e]|].
    + contradiction.
    + destruct H as [-> _]. reflexivity.
    + destruct H as [-> _]. reflexivity.
    + destruct H as [-> _]. reflexivity.
Qed.

(** Once the question passes the guard, the first [next] has started the
    chain, once. *)
Lemma stream_answer_runs_chain_once (w : world) (q : str) (n : nat) :
  strip q <> [] ->
  chain_streams (after (pulls (S n) w (stream_answer q)))
  = chain_streams w ++ [(chain (self_ w), stream_input (self_ w) q)].
Proof.
  intros Hq.
  destruct (pull_chain_streams w q (S n)) as [H | [_ H]]; [|exact H].
  exfalso.
  rewrite StreamSpec.pull_created in H by exact Hq. cbv zeta in H.
  pose proof
    (StreamSpec.pull_suspended chat_model vector_search (S n) (start_stream w q) q
       (resp_chunks (snd (stream (chain (self_ w)) (stream_input (self_ w) q))))
       (resp_end (snd (stream (chain (self_ w)) (stream_input (self_ w) q))))
       []) as P.
  cbv zeta in P.
  assert (E : chain_streams
                (after (pulls (S n) (start_stream w q)
                   (GenSuspended q
                      (resp_chunks (snd (stream (chain (self_ w)) (stream_input (self_ w) q))))
                      (resp_end (snd (stream (chain (self_ w)) (stream_input (self_ w) q))))
                      [])))
              = chain_streams (start_stream w q)).
  { destruct (stopped
                (pulls (S n) (start_stream w q)
                   (GenSuspended q
                      (resp_chunks (snd (stream (chain (self_ w)) (stream_input (self_ w) q))))
                      (resp_end (snd (stream (chain (self_ w)) (stream_input (self_ w) q))))
                      []))) as [[f| |e]|];
      [contradiction | | |]; destruct P as [-> _]; reflexivity. }
  rewrite E in H. simpl in H.
  apply (f_equal (@length _)) in H. rewrite length_app in H. simpl in H. lia.
Qed.

(** C4.  With an empty history the dict given to the chain carries an empty
    [chat_history], the chain makes no condensation call, and its one
    retrieval call has the question as given for its query.  Accordingly no
    consumption of [stream_answer] on a fresh world shows a condensation
    call, and every retrieval call it shows asks the question verbatim. *)
Theorem empty_history_query_is_raw_question (w : world) (q : str) (n : nat) :
  chat_history (self_ w) = [] ->
  let c := chain (self_ w) in
  let x := stream_input (self_ w) q in
  x = {| x_input := q; x_chat_history := Some [] |}
  /\ retrieve_docs chat_model vector_search c x = retrieve vector_search c q
  /\ filter is_condense (fst (stream c x)) = []
  /\ filter is_retrieve (fst (stream c x)) = [Retrieve (chain_retriever c) q]
  /\ (chain_streams w = [] ->
      let r := pulls n w (stream_answer q) in
      filter is_condense (calls_of (after r)) = []
      /\ forall retriever query,
          In (Retrieve retriever query) (calls_of (after r)) -> query = q).
Proof.
  intros Hh c x.
  assert (Hx : x = {| x_input := q; x_chat_history := Some [] |}).
  { unfold x, stream_input. rewrite Hh. reflexivity. }
  assert (Hp : placeholder x = []) by (rewrite Hx; reflexivity).
  destruct (chain_stream_without_history c x Hp) as [Hc Hr].
  split; [exact Hx|]. split; [exact (retrieve_docs_without_history c x Hp)|].
  split; [exact Hc|]. split; [exact Hr|].
  intros Hw r.
  assert (Hcalls : calls_of (after r) = [] \/ calls_of (after r) = fst (stream c x)).
  { unfold provider_calls.
    destruct (pull_chain_streams w q n) as [E | [_ E]]; fold r in E; rewrite E, Hw.
    - left. reflexivity.
    - right. simpl. apply app_nil_r. }
  destruct Hcalls as [-> | ->].
  - split; [reflexivity|]. intros ? ? [].
  - split; [exact Hc|].
    intros retriever query Hin.
    assert (Hin' : In (Retrieve retriever query) (filter is_retrieve (fst (stream c x)))).
    { apply filter_In. split; [exact Hin | reflexivity]. }
    rewrite Hr in Hin'. destruct Hin' as [E | []].
    injection E as _ E. symmetry. exact E.
Qed.


End Calls.

Lemma empty_history_query_is_raw_question_witness :
  let r := pull Stub.chat_model Stub.vector_search 5 Stub.fresh
             (stream_answer Stub.question) in
  filter is_condense (provider_calls Stub.chat_model Stub.vector_search (after r)) = []
  /\ forall retriever query,
      In (Retrieve retriever query)
         (provider_calls Stub.chat_model Stub.vector_search (after r)) ->
      query = Stub.question.
Proof.
  destruct (empty_history_query_is_raw_question
              Stub.chat_model Stub.vector_search Stub.fresh Stub.question 5)
    as (_ & _ & _ & _ & H).
  - reflexivity.
  - apply H. reflexivity.
Defined.


(** The calls of two full runs on the stand-ins. *)
Example fresh_calls :
  let r := pull Stub.chat_model Stub.vector_search 5 Stub.fresh
             (stream_answer Stub.question) in
  map (fun c => (is_condense c, is_retrieve c, is_generate c))
      (provider_calls Stub.chat_model Stub.vector_search (after r))
  = [(false, true, false); (false, false, true)].
Proof.
  vm_compute. reflexivity.
Qed.

Example talked_calls :
  let r := pull Stub.chat_model Stub.vector_search 5 Stub.talked
             (stream_answer Stub.question) in
  map (fun c => (is_condense c, is_retrieve c, is_generate c))
      (provider_calls Stub.chat_model Stub.vector_search (after r))
  = [(true, false, false); (false, true, false); (false, false, true)].
Proof.
  vm_compute. reflexivity.
Qed.

End ChainSpec.

(* ================================================================== *)
(** * Changing the configuration ([app.py], lines 42-45) *)
(* ================================================================== *)

Module ConfigSpec.

Import QAChain.

(** The sidebar stores the slider values in the attributes and leaves the
    chain built by [__init__] as it is. *)
Lemma update_config_attributes (qa : ZhipuQAChain) (t : float) (k : Z) :
  let qa' := App.update_config qa t k in
  chain qa' = chain qa
  /\ chat_history qa' = chat_history qa
  /\ top_k qa' = k
  /\ (temperature qa' = t \/ PrimFloat.eqb t (temperature qa') = true).
Proof.
  unfold App.update_config.
  destruct (PrimFloat.eqb t (temperature qa)) eqn:Et; simpl.
  - destruct (k =? top_k qa)%Z eqn:Ek; simpl.
    + apply Z.eqb_eq in Ek. repeat split; auto.
    + repeat split; auto.
  - destruct (k =? top_k qa)%Z eqn:Ek; simpl.
    + apply Z.eqb_eq in Ek. repeat split; auto.
    + repeat split; auto.
Qed.

Section Run.

Variable chat_model : ZhipuaiLLM -> list message -> list str * stream_end.
Variable vector_search : Retriever -> str -> outcome (list Document).

Local Abbreviation pulls := (pull chat_model vector_search).

Lemma resume_same_run (rest : list chunk) :
  forall w w' q fin full,
    same_run w w' ->
    same_run (fst (fst (resume w q rest fin full)))
             (fst (fst (resume w' q rest fin full)))
    /\ snd (fst (resume w q rest fin full)) = snd (fst (resume w' q rest fin full))
    /\ snd (resume w q rest fin full) = snd (resume w' q rest fin full).
Proof.
  induction rest as [|res rest IH]; intros w w' q fin full H; simpl.
  - destruct fin; simpl; [|auto].
    destruct H as (Hc & Hh & Hs). unfold same_run. simpl.
    rewrite Hh. auto.
  - destruct (dict_get "answer" res) as [[a|l|l]|]; simpl; auto.
Qed.

Lemma gen_next_same_run (w w' : world) (g : generator) :
  same_run w w' ->
  same_run (fst (fst (gen_next chat_model vector_search w g)))
           (fst (fst (gen_next chat_model vector_search w' g)))
  /\ snd (fst (gen_next chat_model vector_search w g))
     = snd (fst (gen_next chat_model vector_search w' g))
  /\ snd (gen_next chat_model vector_search w g)
     = snd (gen_next chat_model vector_search w' g).
Proof.
  intros H. destruct g as [q | q rest fin full |]; simpl.
  - destruct (negb (truthy (strip q))); simpl; [auto|].
    destruct H as (Hc & Hh & Hs).
    unfold stream_input. rewrite Hc, Hh.
    apply resume_same_run. unfold same_run, start_stream, stream_input. simpl.
    rewrite Hc, Hh, Hs. auto.
  - apply resume_same_run. exact H.
  - auto.
Qed.

(** What a consumer sees, and the calls behind it, do not depend on the
    attributes [temperature] and [top_k]. *)
Lemma pull_same_run (n : nat) :
  forall w w' g,
    same_run w w' ->
    same_run (after (pulls n w g)) (after (pulls n w' g))
    /\ fragments (pulls n w g) = fragments (pulls n w' g)
    /\ stopped (pulls n w g) = stopped (pulls n w' g).
Proof.
  induction n as [|n IH]; intros w w' g H; simpl; [auto|].
  destruct (gen_next_same_run w w' g H) as (Hw & Hg & Hs).
  destruct (gen_next chat_model vector_search w g) as [[w1 g1] s1].
  destruct (gen_next chat_model vector_search w' g) as [[w1' g1'] s1'].
  simpl in Hw, Hg, Hs. subst g1' s1'.
  destruct s1 as [a| |e]; simpl; auto.
  destruct (IH w1 w1' g1 Hw) as (H1 & H2 & H3).
  rewrite H2. auto.
Qed.

(** A question asked after the sidebar changed [temperature] and [top_k]
    is answered as if they had not changed. *)
Lemma update_config_not_seen (qa : ZhipuQAChain) (t : float) (k : Z)
    (q : str) (n : nat) :
  let w := {| self_ := qa; chain_streams := [] |} in
  let w' := {| self_ := App.update_config qa t k; chain_streams := [] |} in
  fragments (pulls n w' (stream_answer q)) = fragments (pulls n w (stream_answer q))
  /\ provider_calls chat_model vector_search (after (pulls n w' (stream_answer q)))
     = provider_calls chat_model vector_search (after (pulls n w (stream_answer q))).
Proof.
  intros w w'.
  assert (H : same_run w' w).
  { destruct (update_config_attributes qa t k) as (Hc & Hh & _).
    unfold same_run, w, w'. simpl. auto. }
  destruct (pull_same_run n w' w (stream_answer q) H) as ((_ & _ & Hs) & Hf & _).
  split; [exact Hf|]. unfold provider_calls. rewrite Hs. reflexivity.
Qed.

End Run.

(** C5 on the code.  The session of [app.py] is created with temperature
    0.7 and [top_k] 4; the sliders are then moved to 0.2 and 2 and a question
    is asked.  The attributes hold the new values, yet the retrieval still
    asks for 4 chunks and the generation still runs at 0.7: the chain was
    built once, in [__init__]. *)
Theorem sidebar_update_not_seen_by_chain :
  let qa := App.update_config App.new_session 0x1.999999999999ap-3%float 2 in
  let r := pull Stub.chat_model Stub.vector_search 5
             {| self_ := qa; chain_streams := [] |} (stream_answer Stub.question) in
  temperature qa = 0x1.999999999999ap-3%float
  /\ top_k qa = 2%Z
  /\ stopped r = Some StopIteration
  /\ provider_calls Stub.chat_model Stub.vector_search (after r)
     = [Retrieve {| retr_persist_directory := lit "chroma2"; retr_k := 4 |}
          Stub.question;
        Generate {| llm_model_name := lit "glm-4-plus";
                    llm_temperature := 0x1.6666666666666p-1%float |}
          (qa_prompt (stream_input qa Stub.question)
             (combine_docs [Stub.paris]))].
Proof.
  vm_compute. repeat split.
Qed.

End ConfigSpec.

(* ================================================================== *)
(** * Ingestion ([load_documents]) *)
(* ================================================================== *)

Module IngestSpec.

Import QAChain CreateDb.

Lemma flat_map_flat_map {A B C} (f : B -> list C) (g : A -> list B) (l : list A) :
  flat_map f (flat_map g l) = flat_map (fun a => flat_map f (g a)) l.
Proof.
  induction l as [|a l IH]; simpl; [reflexivity|].
  rewrite flat_map_app, IH. reflexivity.
Qed.

(** A loop all of whose rounds end normally ends normally, with what the
    rounds appended, in order, and with their log records, in order. *)
Lemma for_each_returns {A B} (round : A -> logged (list B)) (items : list A) :
  (forall a, In a items -> exists bs, snd (round a) = Returned bs) ->
  for_each round items
  = (flat_map (fun a => fst (round a)) items,
     Returned (flat_map (fun a => payload (round a)) items)).
Proof.
  induction items as [|a items IH]; intros H; simpl; [reflexivity|].
  destruct (H a (or_introl eq_refl)) as [bs Ha].
  rewrite IH by (intros b Hb; apply H; right; exact Hb).
  unfold payload. destruct (round a) as [log1 r]. simpl in Ha. subst r.
  reflexivity.
Qed.

Section Loading.

Variable unicode_lower : char -> str.
Variable new_loader : loader_class -> str -> option exn.
Variable loader_load : Loader -> outcome (list Document).

Local Abbreviation ext := (ext_of unicode_lower).
Local Abbreviation paths := (collect_paths unicode_lower).
Local Abbreviation add := (add_loader unicode_lower new_loader).
Local Abbreviation load := (load_one loader_load).
Local Abbreviation share := (contribution unicode_lower new_loader loader_load).
Local Abbreviation load_all := (load_documents unicode_lower new_loader loader_load).

(** A file whose extension is not one of the four never reaches the list
    of paths. *)
Lemma collect_paths_skips_unsupported before root dirs files1 file files2 rest :
  str_in (ext file) supported = false ->
  paths (before ++ (root, dirs, files1 ++ file :: files2) :: rest)
  = paths (before ++ (root, dirs, files1 ++ files2) :: rest).
Proof.
  intros H. unfold collect_paths.
  rewrite !flat_map_app. cbn [flat_map]. rewrite !flat_map_app.
  cbn [flat_map]. rewrite H. reflexivity.
Qed.

(** Every collected path comes from a file with one of the four
    extensions. *)
Lemma collect_paths_supported (walk : list (str * list str * list str)) path :
  In path (paths walk) ->
  exists root dirs files file,
    In (root, dirs, files) walk /\ In file files
    /\ str_in (ext file) supported = true
    /\ path = path_join root file.
Proof.
  unfold collect_paths. intros H.
  apply in_flat_map in H as ([[root dirs] files] & Hentry & H).
  apply in_flat_map in H as (file & Hfile & H).
  destruct (str_in (ext file) supported) eqn:E; [|destruct H].
  destruct H as [<- | []].
  exists root, dirs, files, file. auto.
Qed.

Lemma add_loader_returns path :
  (forall cls p c, new_loader cls p <> Some (BaseExc c)) ->
  exists ls, snd (add path) = Returned ls.
Proof.
  intros H. unfold add_loader.
  destruct (loader_class_of (ext path)) as [cls|]; [|eexists; reflexivity].
  destruct (new_loader cls path) as [[c m|c]|] eqn:E;
    try (eexists; reflexivity).
  exfalso. exact (H cls path c E).
Qed.

Lemma load_one_returns l :
  (forall l c, loader_load l <> Raised (BaseExc c)) ->
  exists ds, snd (load l) = Returned ds.
Proof.
  intros H. unfold load_one.
  destruct (loader_load l) as [ds|[c m|c]] eqn:E; try (eexists; reflexivity).
  exfalso. exact (H l c E).
Qed.

(** The two loops, seen from one path: the loader made for it, if any, is
    loaded, and a failure on either side leaves nothing. *)
Lemma contribution_rounds path :
  flat_map (fun l => payload (load l)) (payload (add path)) = share path.
Proof.
  unfold contribution, add_loader, payload.
  destruct (loader_class_of (ext path)) as [cls|]; [|reflexivity].
  destruct (new_loader cls path) as [[c m|c]|]; try reflexivity.
  simpl. unfold load_one.
  destruct (loader_load {| loader_cls := cls; file_path := path |})
    as [ds|[c m|c]]; simpl; try reflexivity.
  apply app_nil_r.
Qed.

(** C9.  Provided nothing but [Exception]s comes out of the loaders
    (what the two [try] blocks catch), [load_documents] returns, and its
    result is what each collected path adds, path after path: a file whose
    [load] raises adds nothing, has its error logged, and the files after
    it are loaded as usual; the same for a loader that cannot be created.
    A file whose extension is not pdf, md, txt or docx is left out: with or
    without it the run is the same. *)
Theorem load_documents_skips_and_continues (walk : list (str * list str * list str)) :
  (forall cls p c, new_loader cls p <> Some (BaseExc c)) ->
  (forall l c, loader_load l <> Raised (BaseExc c)) ->
  (exists log,
      load_all walk = (log, Returned (flat_map share (paths walk)))
      /\ (forall path cls c m,
             In path (paths walk) ->
             loader_class_of (ext path) = Some cls ->
             new_loader cls path = None ->
             loader_load {| loader_cls := cls; file_path := path |}
             = Raised (Exc c m) ->
             share path = []
             /\ In (LogError (load_failed_msg path (Exc c m))) log)
      /\ (forall path cls c m,
             In path (paths walk) ->
             loader_class_of (ext path) = Some cls ->
             new_loader cls path = Some (Exc c m) ->
             share path = []
             /\ In (LogError (create_failed_msg path (Exc c m))) log))
  /\ (forall before root dirs files1 file files2 rest,
         walk = before ++ (root, dirs, files1 ++ file :: files2) :: rest ->
         str_in (ext file) supported = false ->
         load_all walk
         = load_all (before ++ (root, dirs, files1 ++ files2) :: rest)).
Proof.
  intros Hnew Hload. split.
  - unfold load_documents.
    rewrite (for_each_returns add (paths walk))
      by (intros p _; apply add_loader_returns; exact Hnew).
    rewrite (for_each_returns load)
      by (intros l _; apply load_one_returns; exact Hload).
    eexists. split; [|split].
    + rewrite (flat_map_flat_map (fun l => payload (load l))).
      rewrite (flat_map_ext _ _ contribution_rounds). reflexivity.
    + intros path cls c m Hin Hcls Hn Hl. split.
      * unfold contribution. rewrite Hcls, Hn, Hl. reflexivity.
      * apply in_or_app. right.
        apply in_flat_map. exists {| loader_cls := cls; file_path := path |}.
        split.
        -- apply in_flat_map. exists path. split; [exact Hin|].
           unfold payload, add_loader. rewrite Hcls, Hn. left. reflexivity.
        -- unfold load_one. rewrite Hl. left. reflexivity.
    + intros path cls c m Hin Hcls Hn. split.
      * unfold contribution. rewrite Hcls, Hn. reflexivity.
      * apply in_or_app. left.
        apply in_flat_map. exists path. split; [exact Hin|].
        unfold add_loader. rewrite Hcls, Hn. left. reflexivity.
  - intros before root dirs files1 file files2 rest -> Hext.
    unfold load_documents.
    rewrite (collect_paths_skips_unsupported before root dirs files1 file files2 rest Hext).
    reflexivity.
Qed.

End Loading.

Lemma load_documents_skips_and_continues_witness :
  exists log,
    load_documents Stub.unicode_lower Stub.new_loader Stub.loader_load Stub.walk
    = (log,
       Returned [{| page_content := lit "text"; source := lit "kb/a.PDF" |};
                 {| page_content := lit "text"; source := lit "kb/sub/b.txt" |}])
    /\ In (LogError (load_failed_msg (lit "kb/notes.md")
                       (Exc "ValueError" (lit "bad file")))) log.
Proof.
  destruct (load_documents_skips_and_continues
              Stub.unicode_lower Stub.new_loader Stub.loader_load Stub.walk)
    as [(log & Hrun & Hfail & _) _].
  - intros cls p c. discriminate.
  - intros l c. unfold Stub.loader_load.
    destruct (str_eqb (file_path l) (lit "kb/notes.md")); discriminate.
  - exists log. split; [exact Hrun|].
    apply (Hfail (lit "kb/notes.md") UnstructuredMarkdownLoader
             "ValueError"%string (lit "bad file")); vm_compute; auto.
Defined.

(** The stand-in folder, run: the unreadable file and the picture are
    left out, the two others are loaded, in order. *)
Example load_documents_run :
  snd (load_documents Stub.unicode_lower Stub.new_loader Stub.loader_load Stub.walk)
  = Returned [{| page_content := lit "text"; source := lit "kb/a.PDF" |};
              {| page_content := lit "text"; source := lit "kb/sub/b.txt" |}]
  /\ length (fst (load_documents Stub.unicode_lower Stub.new_loader
                    Stub.loader_load Stub.walk)) = 6.
Proof.
  vm_compute. split; reflexivity.
Qed.

End IngestSpec.

(* ================================================================== *)
(** * More on the history ([clear_history], [truncate_history]) *)
(* ================================================================== *)

Module HistoryLaws.

Import QAChain PyFacts.

Lemma truncate_history_gt (self : ZhipuQAChain) (N : Z) :
  (1 <= N)%Z ->
  Z.to_nat N < length (chat_history self) ->
  truncate_history self N
  = Returned (set_chat_history self
                (skipn (length (chat_history self) - Z.to_nat N) (chat_history self)),
              skipn (length (chat_history self) - Z.to_nat N) (chat_history self)).
Proof.
  intros HN Hlen. unfold truncate_history.
  replace (Z.of_nat (length (chat_history self)) >? N)%Z with true
    by (symmetry; apply Z.gtb_lt; lia).
  rewrite (slice_from_neg N _ HN). reflexivity.
Qed.

Lemma truncate_history_le (self : ZhipuQAChain) (N : Z) :
  length (chat_history self) <= Z.to_nat N ->
  (0 <= N)%Z ->
  truncate_history self N = Returned (self, chat_history self).
Proof.
  intros Hlen HN. unfold truncate_history.
  destruct (Z.gtb_spec (Z.of_nat (length (chat_history self))) N); [lia|].
  reflexivity.
Qed.

(** X1.  After [clear_history] the history is empty and the call answers
    [True]; clearing again changes nothing, and a [truncate_history] that
    follows, with any bound at all (zero and negative ones too), returns the
    empty list and leaves the object as cleared. *)
Theorem clear_then_truncate_is_empty (self : ZhipuQAChain) (N : Z) :
  let cleared := fst (clear_history self) in
  chat_history cleared = []
  /\ snd (clear_history self) = true
  /\ clear_history cleared = (cleared, true)
  /\ truncate_history cleared N = Returned (cleared, []).
Proof.
  simpl. repeat split.
  unfold truncate_history. simpl.
  destruct (0 >? N)%Z; [|reflexivity].
  unfold slice_from. simpl. rewrite skipn_nil. reflexivity.
Qed.

(** X2.  Truncating to [N] and then to [M] (both at least 1) is the same as
    truncating once to the smaller of the two; in particular truncating
    twice to the same bound is truncating once. *)
Theorem truncate_history_twice (self : ZhipuQAChain) (N M : Z) :
  (1 <= N)%Z ->
  (1 <= M)%Z ->
  exists s1 s2,
    truncate_history self N = Returned (s1, chat_history s1)
    /\ truncate_history s1 M = Returned (s2, chat_history s2)
    /\ truncate_history self (Z.min M N) = Returned (s2, chat_history s2).
Proof.
  intros HN HM.
  destruct (Nat.lt_ge_cases (Z.to_nat N) (length (chat_history self))) as [Hgt | Hle].
  - set (s1 := set_chat_history self
                 (skipn (length (chat_history self) - Z.to_nat N) (chat_history self))).
    assert (Hlen1 : length (chat_history s1) = Z.to_nat N).
    { unfold s1. simpl. rewrite length_skipn. lia. }
    destruct (Nat.lt_ge_cases (Z.to_nat M) (length (chat_history s1))) as [Hgt' | Hle'].
    + exists s1,
        (set_chat_history s1
           (skipn (length (chat_history s1) - Z.to_nat M) (chat_history s1))).
      split; [exact (truncate_history_gt self N HN Hgt)|].
      split; [exact (truncate_history_gt s1 M HM Hgt')|].
      rewrite Z.min_l by lia.
      rewrite (truncate_history_gt self M HM) by lia.
      rewrite Hlen1. unfold s1. simpl. rewrite !skipn_skipn.
      replace (Z.to_nat N - Z.to_nat M
               + (length (chat_history self) - Z.to_nat N))
        with (length (chat_history self) - Z.to_nat M) by lia.
      reflexivity.
    + exists s1, s1.
      split; [exact (truncate_history_gt self N HN Hgt)|].
      split; [apply truncate_history_le; [exact Hle' | lia]|].
      rewrite Z.min_r by lia.
      exact (truncate_history_gt self N HN Hgt).
  - destruct (Nat.lt_ge_cases (Z.to_nat M) (length (chat_history self))) as [Hgt' | Hle'].
    + exists self,
        (set_chat_history self
           (skipn (length (chat_history self) - Z.to_nat M) (chat_history self))).
      split; [apply truncate_history_le; [exact Hle | lia]|].
      split; [exact (truncate_history_gt self M HM Hgt')|].
      rewrite Z.min_l by lia.
      exact (truncate_history_gt self M HM Hgt').
    + exists self, self.
      split; [apply truncate_history_le; [exact Hle | lia]|].
      split; [apply truncate_history_le; [exact Hle' | lia]|].
      apply truncate_history_le; lia.
Qed.

Lemma truncate_history_twice_witness :
  exists s1 s2,
    truncate_history (set_chat_history App.new_session Stub.six_turns) 5
    = Returned (s1, chat_history s1)
    /\ truncate_history s1 2 = Returned (s2, chat_history s2)
    /\ truncate_history (set_chat_history App.new_session Stub.six_turns)
         (Z.min 2 5)
       = Returned (s2, chat_history s2).
Proof.
  apply (truncate_history_twice
           (set_chat_history App.new_session Stub.six_turns) 5 2); lia.
Defined.

(** X3.  What the code does with a bound that is not positive: with the
    bound [-k] (for [k = 0] this is the bound [0]) it returns the history
    without its [k] oldest turns.  So the bound [0] keeps every turn, and a
    negative bound drops turns from the front, all of them once [k] reaches
    the length. *)
Theorem truncate_history_nonpositive (self : ZhipuQAChain) (k : nat) :
  exists self',
    truncate_history self (- Z.of_nat k) = Returned (self', chat_history self')
    /\ chat_history self' = skipn k (chat_history self)
    /\ set_chat_history self' (chat_history self)
       = set_chat_history self (chat_history self).
Proof.
  unfold truncate_history.
  destruct (Z.of_nat (length (chat_history self)) >? - Z.of_nat k)%Z eqn:E.
  - eexists. split; [reflexivity|]. simpl. split; [|reflexivity].
    unfold slice_from. rewrite Z.opp_involutive.
    destruct (Z.of_nat k <? 0)%Z eqn:Ek; [apply Z.ltb_lt in Ek; lia|].
    destruct (Nat.le_gt_cases k (length (chat_history self))) as [Hle | Hgt].
    + rewrite Z.min_l by lia. rewrite Nat2Z.id. reflexivity.
    + rewrite Z.min_r by lia. rewrite Nat2Z.id.
      rewrite !skipn_all2 by lia. reflexivity.
  - exists self. split; [reflexivity|]. split; [|reflexivity].
    assert (H : k = 0 /\ length (chat_history self) = 0).
    { destruct (Z.gtb_spec (Z.of_nat (length (chat_history self))) (- Z.of_nat k));
        [discriminate | lia]. }
    destruct H as [-> _]. reflexivity.
Qed.

End HistoryLaws.

(* ================================================================== *)
(** * More on the answer stream and the chain *)
(* ================================================================== *)

Module StreamLaws.

Import QAChain PyFacts.

(** [combine_docs] puts one blank line between two texts and none around
    them. *)
Lemma join_app (sep : str) (l1 l2 : list str) :
  l1 <> [] -> l2 <> [] ->
  join sep (l1 ++ l2) = join sep l1 ++ sep ++ join sep l2.
Proof.
  intros H1 H2. induction l1 as [|p l1 IH]; [contradiction|].
  destruct l1 as [|p' l1].
  - simpl. destruct l2; [contradiction | reflexivity].
  - change (join sep ((p :: p' :: l1) ++ l2))
      with (p ++ sep ++ join sep ((p' :: l1) ++ l2)).
    rewrite IH by discriminate.
    change (join sep (p :: p' :: l1)) with (p ++ sep ++ join sep (p' :: l1)).
    rewrite <- !app_assoc. reflexivity.
Qed.

(** X11.  The context given to the model holds the text of every retrieved
    document whole and in retrieval order: joining two non-empty runs of
    documents gives the two contexts with exactly one blank line (two line
    feeds) between them, and a single document is its own context. *)
Theorem combine_docs_app (docs1 docs2 : list Document) (d : Document) :
  combine_docs [d] = page_content d
  /\ (docs1 <> [] -> docs2 <> [] ->
      combine_docs (docs1 ++ docs2)
      = combine_docs docs1 ++ [10; 10]%N ++ combine_docs docs2).
Proof.
  split; [reflexivity|].
  intros H1 H2. unfold combine_docs. rewrite map_app.
  apply join_app.
  - destruct docs1; [contradiction | discriminate].
  - destruct docs2; [contradiction | discriminate].
Qed.

Lemma combine_docs_app_witness :
  combine_docs [Stub.paris] = page_content Stub.paris
  /\ combine_docs ([Stub.paris] ++ [Stub.paris; Stub.paris])
     = combine_docs [Stub.paris] ++ [10; 10]%N
         ++ combine_docs [Stub.paris; Stub.paris].
Proof.
  destruct (combine_docs_app [Stub.paris] [Stub.paris; Stub.paris] Stub.paris)
    as [H1 H2].
  split; [exact H1|]. apply H2; discriminate.
Defined.

Section Run.

Variable chat_model : ZhipuaiLLM -> list message -> list str * stream_end.
Variable vector_search : Retriever -> str -> outcome (list Document).

Local Abbreviation next := (gen_next chat_model vector_search).
Local Abbreviation pulls := (pull chat_model vector_search).
Local Abbreviation stream := (chain_stream chat_model vector_search).
Local Abbreviation calls_of := (provider_calls chat_model vector_search).

(** A consumption that stopped leaves a finished generator. *)
Lemma pull_stopped_finished (n : nat) (w : world) (q : str) (s : sent) :
  stopped (pulls n w (stream_answer q)) = Some s ->
  gen_after (pulls n w (stream_answer q)) = GenFinished.
Proof.
  destruct n as [|n]; [discriminate|].
  destruct (strip q) as [|c t] eqn:Hq.
  - rewrite (StreamSpec.pull_blank _ _ n w q Hq). reflexivity.
  - rewrite StreamSpec.pull_created by (rewrite Hq; discriminate).
    cbv zeta.
    pose proof
      (StreamSpec.pull_suspended chat_model vector_search (S n) (start_stream w q) q
         (resp_chunks (snd (stream (chain (self_ w)) (stream_input (self_ w) q))))
         (resp_end (snd (stream (chain (self_ w)) (stream_input (self_ w) q))))
         []) as H.
    cbv zeta in H.
    destruct (stopped
                (pulls (S n) (start_stream w q)
                   (GenSuspended q
                      (resp_chunks (snd (stream (chain (self_ w)) (stream_input (self_ w) q))))
                      (resp_end (snd (stream (chain (self_ w)) (stream_input (self_ w) q))))
                      []))) as [[f| |e]|]; intros Hs.
    + contradiction.
    + exact (proj2 H).
    + exact (proj2 H).
    + discriminate.
Qed.

(** X4.  Once a consumption has stopped (end of stream or exception), the
    generator is finished for good: every further [next] answers
    [StopIteration], yields nothing and leaves the world as it is, so the
    turn is never recorded a second time and the chain is never run again. *)
Theorem finished_generator_stays_finished (n m : nat) (w : world) (q : str)
    (s : sent) :
  let r := pulls n w (stream_answer q) in
  stopped r = Some s ->
  gen_after r = GenFinished
  /\ pulls (S m) (after r) (gen_after r)
     = {| after := after r; gen_after := GenFinished; fragments := [];
          stopped := Some StopIteration |}.
Proof.
  intros r Hs.
  pose proof (pull_stopped_finished n w q s Hs) as Hg. fold r in Hg.
  split; [exact Hg|]. rewrite Hg. reflexivity.
Qed.

Lemma resume_yield_answers (rest : list chunk) :
  forall w q fin full w' g' a,
    resume w q rest fin full = (w', g', Yield a) ->
    exists rest', g' = GenSuspended q rest' fin (full ++ a)
                  /\ answers rest = a :: answers rest'.
Proof.
  induction rest as [|res rest IH]; intros w q fin full w' g' a; simpl.
  - destruct fin; discriminate.
  - destruct (dict_get "answer" res) as [[b|l|l]|].
    + intros H. injection H as _ <- <-. exists rest. split; reflexivity.
    + discriminate.
    + discriminate.
    + apply IH.
Qed.

Lemma pull_suspended_prefix (n : nat) :
  forall w q rest fin full,
  exists tail,
    answers rest = fragments (pulls n w (GenSuspended q rest fin full)) ++ tail.
Proof.
  induction n as [|n IH]; intros w q rest fin full; simpl.
  - exists (answers rest). reflexivity.
  - destruct (resume w q rest fin full) as [[w' g'] [a| |e]] eqn:E; simpl.
    + destruct (resume_yield_answers rest w q fin full w' g' a E) as (rest' & -> & Ha).
      destruct (IH w' q rest' fin (full ++ a)) as [tail Ht].
      exists tail. rewrite Ha, Ht. reflexivity.
    + exists (answers rest). reflexivity.
    + exists (answers rest). reflexivity.
Qed.


(** A stream that breaks is drained up to the exception, with every
    fragment before it delivered and nothing recorded. *)
Lemma pull_drains_raises (rest : list chunk) :
  forall n w q full e,
    str_answers rest ->
    length rest < n ->
    pulls n w (GenSuspended q rest (StreamRaises e) full)
    = {| after := w; gen_after := GenFinished; fragments := answers rest;
         stopped := Some (Raise e) |}.
Proof.
  induction rest as [|res rest IH]; intros n w q full e Hstr Hn;
    (destruct n as [|n]; [simpl in Hn; lia|]).
  - reflexivity.
  - assert (Hstr' : str_answers rest).
    { intros r v Hin. apply Hstr. right. exact Hin. }
    simpl in Hn. simpl.
    destruct (dict_get "answer" res) as [v|] eqn:E.
    + destruct (Hstr res v (or_introl eq_refl) E) as [a ->].
      simpl. rewrite (IH n w q (full ++ a) e Hstr') by lia. reflexivity.
    + specialize (IH (S n) w q full e Hstr'). simpl in IH. apply IH. lia.
Qed.

Lemma retrieve_docs_calls (c : Chain) (x : chain_input) :
  filter is_generate (fst (retrieve_docs chat_model vector_search c x)) = [].
Proof.
  unfold retrieve_docs, bind, condense, retrieve.
  destruct (negb (truthy (placeholder x))); [reflexivity|].
  destruct (chat_model (chain_llm c) (condense_question_prompt x)) as [frags [|e]];
    reflexivity.
Qed.


(** X10.  When the generation stream breaks with an exception after some
    fragments, a consumer that keeps asking receives every fragment emitted
    before the break, in order, and then that same exception; the history
    is as before. *)
Theorem broken_generation_delivers_then_raises (n : nat) (w : world) (q : str)
    (calls : list provider_call) (docs : list Document) (frags : list str)
    (e : exn) :
  strip q <> [] ->
  let c := chain (self_ w) in
  let x := stream_input (self_ w) q in
  retrieve_docs chat_model vector_search c x = (calls, Returned docs) ->
  chat_model (chain_llm c) (qa_prompt x (combine_docs docs))
  = (frags, StreamRaises e) ->
  length frags + 2 < n ->
  let r := pulls n w (stream_answer q) in
  stopped r = Some (Raise e)
  /\ fragments r = frags
  /\ self_ (after r) = self_ w.
Proof.
  intros Hq c x Hr Hm Hn r.
  assert (Hs : snd (stream c x)
               = {| resp_chunks :=
                      passthrough x :: [("context"%string, VDocs docs)]
                        :: map (fun f => [("answer"%string, VStr f)]) frags;
                    resp_end := StreamRaises e |}).
  { unfold chain_stream. rewrite Hr, Hm. reflexivity. }
  pose proof (StreamSpec.chain_stream_answers chat_model vector_search c x) as [Hstr Hans].
  cbv zeta in Hstr.
  assert (Ha : answers (resp_chunks (snd (stream c x))) = frags).
  { rewrite Hs. cbn [resp_chunks answers].
    assert (Hp : dict_get "answer" (passthrough x) = None).
    { unfold passthrough. destruct (x_chat_history x); reflexivity. }
    rewrite Hp. cbn [dict_get String.eqb Ascii.eqb Bool.eqb].
    apply StreamSpec.answers_map_answer. }
  unfold r. destruct n as [|n]; [lia|].
  rewrite StreamSpec.pull_created by exact Hq. cbv zeta.
  fold c x.
  assert (Hend : resp_end (snd (stream c x)) = StreamRaises e) by (rewrite Hs; reflexivity).
  rewrite Hend.
  rewrite pull_drains_raises; [| exact Hstr |].
  - simpl. rewrite Ha. repeat split.
  - rewrite Hs. simpl. rewrite length_map. lia.
Qed.

End Run.

Lemma finished_generator_stays_finished_witness :
  let r := pull Stub.chat_model Stub.vector_search 5 Stub.fresh
             (stream_answer Stub.question) in
  gen_after r = GenFinished
  /\ pull Stub.chat_model Stub.vector_search 3 (after r) (gen_after r)
     = {| after := after r; gen_after := GenFinished; fragments := [];
          stopped := Some StopIteration |}.
Proof.
  apply (finished_generator_stays_finished
           Stub.chat_model Stub.vector_search 5 2 Stub.fresh Stub.question
           StopIteration).
  reflexivity.
Defined.


Lemma broken_generation_delivers_then_raises_witness :
  let r := pull Stub.broken_model Stub.vector_search 4 Stub.fresh
             (stream_answer Stub.question) in
  stopped r = Some (Raise (Exc "ConnectionError" (lit "reset")))
  /\ fragments r = [lit "Par"]
  /\ self_ (after r) = self_ Stub.fresh.
Proof.
  apply (broken_generation_delivers_then_raises
           Stub.broken_model Stub.vector_search 4 Stub.fresh Stub.question
           [Retrieve (chain_retriever (chain (self_ Stub.fresh))) Stub.question]
           [Stub.paris] [lit "Par"] (Exc "ConnectionError" (lit "reset"))).
  - vm_compute. discriminate.
  - reflexivity.
  - reflexivity.
  - vm_compute. lia.
Defined.

End StreamLaws.

(* ================================================================== *)
(** * Questions in a row *)
(* ================================================================== *)

Module SessionLaws.

Import QAChain PyFacts.

Lemma formatted_history_app (h1 h2 : list Turn) :
  formatted_history (h1 ++ h2) = formatted_history h1 ++ formatted_history h2.
Proof.
  unfold formatted_history. apply flat_map_app.
Qed.

Section Run.

Variable chat_model : ZhipuaiLLM -> list message -> list str * stream_end.
Variable vector_search : Retriever -> str -> outcome (list Document).

Local Abbreviation pulls := (pull chat_model vector_search).
Local Abbreviation stream := (chain_stream chat_model vector_search).

(** With some history in the dict the chain starts by condensing. *)
Lemma chain_stream_with_history (c : Chain) (x : chain_input) :
  placeholder x <> [] ->
  exists rest,
    fst (stream c x) = Condense (chain_llm c) (condense_question_prompt x) :: rest.
Proof.
  intros H.
  assert (Hp : truthy (placeholder x) = true).
  { destruct (placeholder x); [contradiction | reflexivity]. }
  unfold chain_stream, retrieve_docs. rewrite Hp. simpl.
  unfold condense, retrieve.
  destruct (chat_model (chain_llm c) (condense_question_prompt x)) as [frags [|e]];
    simpl.
  - destruct (vector_search (chain_retriever c) (concat frags)) as [docs|e].
    + destruct (chat_model (chain_llm c) (qa_prompt x (combine_docs docs))).
      eexists. reflexivity.
    + eexists. reflexivity.
  - eexists. reflexivity.
Qed.


(** X8.  An answer depends on the object only through [self.chain] and
    [self.chat_history]: two worlds that agree on these (and on the chain
    runs so far) give every consumer the same fragments and the same end,
    make the same provider calls, and agree again afterwards.  The
    attributes [model_name], [temperature], [top_k] and [persist_directory]
    are never read. *)
Theorem answer_reads_chain_and_history_only (n : nat) (w w' : world) (q : str) :
  same_run w w' ->
  let r := pulls n w (stream_answer q) in
  let r' := pulls n w' (stream_answer q) in
  fragments r = fragments r'
  /\ stopped r = stopped r'
  /\ chat_history (self_ (after r)) = chat_history (self_ (after r'))
  /\ provider_calls chat_model vector_search (after r)
     = provider_calls chat_model vector_search (after r').
Proof.
  intros H r r'.
  destruct (ConfigSpec.pull_same_run chat_model vector_search n w w'
              (stream_answer q) H) as ((_ & Hh & Hc) & Hf & Hs).
  fold r r' in Hh, Hc, Hf, Hs.
  split; [exact Hf|]. split; [exact Hs|]. split; [exact Hh|].
  unfold provider_calls. rewrite Hc. reflexivity.
Qed.

End Run.


Lemma answer_reads_chain_and_history_only_witness :
  let w := Stub.fresh in
  let w' := {| self_ := App.update_config App.new_session 0x1.999999999999ap-3%float 2;
               chain_streams := [] |} in
  let r := pull Stub.chat_model Stub.vector_search 5 w (stream_answer Stub.question) in
  let r' := pull Stub.chat_model Stub.vector_search 5 w' (stream_answer Stub.question) in
  fragments r = fragments r'
  /\ stopped r = stopped r'
  /\ chat_history (self_ (after r)) = chat_history (self_ (after r'))
  /\ provider_calls Stub.chat_model Stub.vector_search (after r)
     = provider_calls Stub.chat_model Stub.vector_search (after r').
Proof.
  apply (answer_reads_chain_and_history_only
           Stub.chat_model Stub.vector_search 5 Stub.fresh
           {| self_ := App.update_config App.new_session 0x1.999999999999ap-3%float 2;
              chain_streams := [] |}
           Stub.question).
  repeat split.
Defined.

End SessionLaws.

(* ================================================================== *)
(** * More on ingestion: extensions, dispatch, interrupts *)
(* ================================================================== *)

Module IngestLaws.

Import QAChain CreateDb.

Lemma split_nonempty (sep : char) (s : str) : split sep s <> [].
Proof.
  induction s as [|c s IH]; simpl; [discriminate|].
  destruct (c =? sep)%N; [discriminate|].
  destruct (split sep s); discriminate.
Qed.

Lemma split_app_sep (sep : char) (a b : str) :
  split sep (a ++ sep :: b) = split sep a ++ split sep b.
Proof.
  induction a as [|c a IH]; simpl.
  - rewrite N.eqb_refl. reflexivity.
  - destruct (c =? sep)%N.
    + rewrite IH. reflexivity.
    + rewrite IH.
      destruct (split sep a) as [|p ps] eqn:E; [|reflexivity].
      exfalso. exact (split_nonempty sep a E).
Qed.

Lemma split_nosep (sep : char) (s : str) : ~ In sep s -> split sep s = [s].
Proof.
  induction s as [|c s IH]; simpl; intros H; [reflexivity|].
  destruct (N.eqb_spec c sep) as [->|Hne]; [exfalso; apply H; left; reflexivity|].
  rewrite IH by (intros Hin; apply H; right; exact Hin). reflexivity.
Qed.

Lemma last_app_nonempty {A} (l1 l2 : list A) (d : A) :
  l2 <> [] -> last (l1 ++ l2) d = last l2 d.
Proof.
  intros H. induction l1 as [|a l1 IH]; [reflexivity|].
  simpl. rewrite IH.
  destruct (l1 ++ l2) eqn:E; [|reflexivity].
  apply app_eq_nil in E. destruct E as [_ E]. contradiction.
Qed.

(** What follows the last separator is the last part. *)
Lemma last_part_after_sep (sep : char) (a b : str) :
  last_part sep (a ++ sep :: b) = last_part sep b.
Proof.
  unfold last_part. rewrite split_app_sep.
  apply last_app_nonempty. apply split_nonempty.
Qed.

Lemma last_part_nosep (sep : char) (s : str) :
  ~ In sep s -> last_part sep s = s.
Proof.
  intros H. unfold last_part. rewrite (split_nosep sep s H). reflexivity.
Qed.

Lemma last_occurrence (sep : char) (a : str) :
  ~ In sep a \/ exists a1 a2, a = a1 ++ sep :: a2 /\ ~ In sep a2.
Proof.
  induction a as [|c a IH].
  - left. intros [].
  - destruct IH as [Hno | (a1 & a2 & -> & Hno)].
    + destruct (N.eqb_spec c sep) as [->|Hne].
      * right. exists [], a. split; [reflexivity | exact Hno].
      * left. intros [E | Hin]; [exact (Hne E) | exact (Hno Hin)].
    + right. exists (c :: a1), a2. split; [reflexivity | exact Hno].
Qed.

(** A tail without separator stays at the end of the last part. *)
Lemma last_part_keeps_tail (sep : char) (a b : str) :
  ~ In sep b -> exists pre, last_part sep (a ++ b) = pre ++ b.
Proof.
  intros Hb. destruct (last_occurrence sep a) as [Hno | (a1 & a2 & -> & Hno)].
  - exists a. apply last_part_nosep.
    intros Hin. apply in_app_or in Hin. tauto.
  - exists a2. rewrite <- app_assoc. simpl.
    rewrite last_part_after_sep. apply last_part_nosep.
    intros Hin. apply in_app_or in Hin. tauto.
Qed.

(** The three ways [os.path.join] puts two parts together. *)
Lemma path_join_cases (root file : str) :
  (path_join root file = file /\ (root = [] \/ exists t, file = 47%N :: t))
  \/ (root <> [] /\ last root 0%N = 47%N /\ path_join root file = root ++ file)
  \/ (root <> [] /\ path_join root file = root ++ 47%N :: file).
Proof.
  assert (Hdef : forall b,
             let d := match root with
                      | [] => b
                      | _ :: _ =>
                          if (last root 0 =? 47)%N then root ++ b
                          else root ++ 47%N :: b
                      end in
             (d = b /\ (root = [] \/ exists t, b = 47%N :: t))
             \/ (root <> [] /\ last root 0%N = 47%N /\ d = root ++ b)
             \/ (root <> [] /\ d = root ++ 47%N :: b)).
  { intros b. destruct root as [|r root]; cbv zeta.
    - left. auto.
    - destruct (last (r :: root) 0 =? 47)%N eqn:E.
      + right; left. split; [discriminate|].
        split; [apply N.eqb_eq; exact E | reflexivity].
      + right; right. split; [discriminate | reflexivity]. }
  unfold path_join.
  destruct file as [|c file]; [apply Hdef|].
  destruct c as [|p]; [apply Hdef|].
  repeat (destruct p as [p|p|]; try apply Hdef).
  left. split; [reflexivity|]. right. eexists. reflexivity.
Qed.

Lemma path_join_suffix (root file : str) :
  exists prefix, path_join root file = prefix ++ file.
Proof.
  destruct (path_join_cases root file) as [[E _] | [(_ & _ & E) | [_ E]]].
  - exists []. exact E.
  - exists root. exact E.
  - exists (root ++ [47%N]). rewrite <- app_assoc. exact E.
Qed.

Lemma str_eqb_eq (a b : str) : str_eqb a b = true -> a = b.
Proof.
  revert b. induction a as [|c a IH]; intros [|d b]; simpl; try discriminate.
  - reflexivity.
  - intros H. apply andb_prop in H as [Hc Hab].
    apply N.eqb_eq in Hc. subst d. f_equal. apply IH. exact Hab.
Qed.

Section Loading.

Variable unicode_lower : char -> str.
Variable new_loader : loader_class -> str -> option exn.
Variable loader_load : Loader -> outcome (list Document).

Local Abbreviation ext := (ext_of unicode_lower).
Local Abbreviation paths := (collect_paths unicode_lower).
Local Abbreviation add := (add_loader unicode_lower new_loader).
Local Abbreviation load := (load_one loader_load).
Local Abbreviation load_all := (load_documents unicode_lower new_loader loader_load).

(** X12.  The extension the code works with: for a name with a dot it is
    what follows the last dot, in lower case; for a name without any dot it
    is the whole name in lower case. *)
Theorem ext_of_cases (base e name : str) :
  (~ In 46%N e -> ext (base ++ 46%N :: e) = lower unicode_lower e)
  /\ (~ In 46%N name -> ext name = lower unicode_lower name).
Proof.
  unfold ext_of. split; intros H.
  - rewrite last_part_after_sep, (last_part_nosep 46%N e H). reflexivity.
  - rewrite (last_part_nosep 46%N name H). reflexivity.
Qed.

Lemma supported_has_class (file_ext : str) :
  str_in file_ext supported = true ->
  exists cls, loader_class_of file_ext = Some cls.
Proof.
  unfold str_in, supported, loader_class_of. simpl.
  destruct (str_eqb file_ext (lit "pdf")); [eexists; reflexivity|].
  destruct (str_eqb file_ext (lit "md")); [eexists; reflexivity|].
  destruct (str_eqb file_ext (lit "txt")); [eexists; reflexivity|].
  destruct (str_eqb file_ext (lit "docx")); [eexists; reflexivity|].
  discriminate.
Qed.

(** X13.  The two loops agree on a file whose name has a dot: the
    extension computed from the joined path in the second loop is the one
    computed from the file name in the first, so every such file that
    passes the filter is given a loader class (and then either a loader or
    an error record). *)
Theorem dotted_file_gets_a_loader_class (root b e : str) :
  let file := b ++ 46%N :: e in
  ext (path_join root file) = ext file
  /\ (str_in (ext file) supported = true ->
      exists cls, loader_class_of (ext (path_join root file)) = Some cls).
Proof.
  intros file.
  assert (E : ext (path_join root file) = ext file).
  { destruct (path_join_suffix root file) as [prefix ->].
    unfold ext_of, file. rewrite app_assoc.
    rewrite !last_part_after_sep. reflexivity. }
  split; [exact E|]. rewrite E. apply supported_has_class.
Qed.

Lemma lower_keeps_slash (s : str) :
  In 47%N s -> In 47%N (lower unicode_lower s).
Proof.
  intros H. unfold lower. apply in_flat_map. exists 47%N.
  split; [exact H|]. left. reflexivity.
Qed.

Lemma no_class_with_slash (file_ext : str) :
  In 47%N file_ext -> loader_class_of file_ext = None.
Proof.
  intros H. unfold loader_class_of.
  destruct (str_eqb file_ext (lit "pdf")) eqn:E1.
  { apply str_eqb_eq in E1. subst. vm_compute in H. intuition discriminate. }
  destruct (str_eqb file_ext (lit "md")) eqn:E2.
  { apply str_eqb_eq in E2. subst. vm_compute in H. intuition discriminate. }
  destruct (str_eqb file_ext (lit "txt")) eqn:E3.
  { apply str_eqb_eq in E3. subst. vm_compute in H. intuition discriminate. }
  destruct (str_eqb file_ext (lit "docx")) eqn:E4.
  { apply str_eqb_eq in E4. subst. vm_compute in H. intuition discriminate. }
  reflexivity.
Qed.

(** X14.  A file whose name has no dot and is itself one of pdf, md, txt,
    docx (in any case) passes the filter of the first loop, the whole name
    being taken for the extension.  In the second loop the extension is
    taken from the joined path, which now holds a slash, so no branch of the
    [if]/[elif] chain is taken: the file gets no loader, nothing is logged
    for it and it adds no document. *)
Theorem dotless_file_dropped_silently (walk : list (str * list str * list str))
    (root : str) (dirs files : list str) (file : str) :
  In (root, dirs, files) walk ->
  In file files ->
  ~ In 46%N file ->
  ~ In 47%N file ->
  root <> [] ->
  str_in (lower unicode_lower file) supported = true ->
  In (path_join root file) (paths walk)
  /\ add (path_join root file) = ([], Returned [])
  /\ contribution unicode_lower new_loader loader_load (path_join root file) = [].
Proof.
  intros Hentry Hfile Hdot Hslash Hroot Hsup.
  assert (Hext : ext file = lower unicode_lower file).
  { unfold ext_of. rewrite (last_part_nosep 46%N file Hdot). reflexivity. }
  assert (Hpath : exists r, path_join root file = r ++ 47%N :: file).
  { destruct (path_join_cases root file)
      as [[_ [E | [t E]]] | [(_ & El & E) | [_ E]]].
    - contradiction.
    - exfalso. apply Hslash. rewrite E. left. reflexivity.
    - destruct (@exists_last _ root Hroot) as (r & z & Er).
      rewrite Er in El. rewrite last_last in El. subst z.
      exists r. rewrite E, Er, <- app_assoc. reflexivity.
    - exists root. exact E. }
  destruct Hpath as [r Hpath].
  assert (Hnone : loader_class_of (ext (path_join root file)) = None).
  { apply no_class_with_slash. unfold ext_of. apply lower_keeps_slash.
    rewrite Hpath.
    assert (Htail : ~ In 46%N (47%N :: file)).
    { intros [E | Hin]; [discriminate | exact (Hdot Hin)]. }
    destruct (last_part_keeps_tail 46%N r (47%N :: file) Htail) as [pre Hpre].
    match goal with
    | |- In _ ?t => replace t with (pre ++ 47%N :: file) by (symmetry; exact Hpre)
    end.
    apply in_or_app. right. left. reflexivity. }
  split; [|split].
  - unfold collect_paths. apply in_flat_map. exists (root, dirs, files).
    split; [exact Hentry|]. apply in_flat_map. exists file.
    split; [exact Hfile|]. rewrite Hext, Hsup. left. reflexivity.
  - unfold add_loader. rewrite Hnone. reflexivity.
  - unfold contribution. rewrite Hnone. reflexivity.
Qed.

(** A round that raises stops the loop with an exception of some round. *)
Lemma for_each_raises {A B} (round : A -> logged (list B)) (items : list A) :
  (exists a e, In a items /\ snd (round a) = Raised e) ->
  exists log a e,
    for_each round items = (log, Raised e) /\ In a items /\ snd (round a) = Raised e.
Proof.
  induction items as [|a items IH]; intros (a0 & e0 & Hin & Hr); [destruct Hin|].
  simpl. destruct (round a) as [log1 [bs|e]] eqn:Ea.
  - destruct Hin as [<- | Hin].
    + rewrite Ea in Hr. discriminate.
    + destruct IH as (log & a' & e' & E & Hin' & Hr'); [exists a0, e0; auto|].
      rewrite E. exists (log1 ++ log), a', e'. auto.
  - exists log1, a, e. split; [reflexivity|]. split; [left; reflexivity|].
    rewrite Ea. reflexivity.
Qed.

Lemma load_one_raises_base (l : Loader) (e : exn) :
  snd (load l) = Raised e -> exists c, e = BaseExc c.
Proof.
  unfold load_one. destruct (loader_load l) as [ds|[c m|c]]; simpl;
    try discriminate.
  intros H. injection H as <-. exists c. reflexivity.
Qed.

(** X15.  The [try] blocks catch [Exception] only: when the loaders can be
    created and the [load] of one collected file raises something else (a
    [KeyboardInterrupt], say), [load_documents] does not go on to the other
    files; it raises such an exception itself and returns no documents. *)
Theorem interrupt_aborts_loading (walk : list (str * list str * list str))
    (path : str) (cls : loader_class) (c : string) :
  (forall cls p c, new_loader cls p <> Some (BaseExc c)) ->
  In path (paths walk) ->
  loader_class_of (ext path) = Some cls ->
  new_loader cls path = None ->
  loader_load {| loader_cls := cls; file_path := path |} = Raised (BaseExc c) ->
  exists log c', load_all walk = (log, Raised (BaseExc c')).
Proof.
  intros Hnew Hin Hcls Hn Hl. unfold load_documents.
  rewrite (IngestSpec.for_each_returns add (paths walk))
    by (intros p _; apply IngestSpec.add_loader_returns; exact Hnew).
  destruct (for_each_raises load
              (flat_map (fun a => payload (add a)) (paths walk)))
    as (log & l & e & E & _ & Hr).
  - exists {| loader_cls := cls; file_path := path |}, (BaseExc c). split.
    + apply in_flat_map. exists path. split; [exact Hin|].
      unfold payload, add_loader. rewrite Hcls, Hn. left. reflexivity.
    + unfold load_one. rewrite Hl. reflexivity.
  - rewrite E. destruct (load_one_raises_base l e Hr) as [c' ->].
    eexists. exists c'. reflexivity.
Qed.

End Loading.

Lemma dotless_file_dropped_silently_witness :
  let walk := [(lit "kb", @nil str, [lit "PDF"; lit "a.md"])] in
  In (lit "kb/PDF") (collect_paths Stub.unicode_lower walk)
  /\ add_loader Stub.unicode_lower Stub.new_loader (lit "kb/PDF") = ([], Returned [])
  /\ contribution Stub.unicode_lower Stub.new_loader Stub.loader_load (lit "kb/PDF")
     = [].
Proof.
  apply (dotless_file_dropped_silently
           Stub.unicode_lower Stub.new_loader Stub.loader_load
           [(lit "kb", [], [lit "PDF"; lit "a.md"])]
           (lit "kb") [] [lit "PDF"; lit "a.md"] (lit "PDF")).
  - left. reflexivity.
  - left. reflexivity.
  - vm_compute. intuition discriminate.
  - vm_compute. intuition discriminate.
  - discriminate.
  - reflexivity.
Defined.

Lemma interrupt_aborts_loading_witness :
  exists log c',
    load_documents Stub.unicode_lower Stub.new_loader Stub.interrupted_load Stub.walk
    = (log, Raised (BaseExc c')).
Proof.
  apply (interrupt_aborts_loading
           Stub.unicode_lower Stub.new_loader Stub.interrupted_load Stub.walk
           (lit "kb/notes.md") UnstructuredMarkdownLoader "KeyboardInterrupt"%string).
  - intros cls p c. discriminate.
  - vm_compute. auto.
  - reflexivity.
  - reflexivity.
  - reflexivity.
Defined.

End IngestLaws.

(* ================================================================== *)
(** * Cleaning the text ([process_and_split_docs], lines 106-111) *)
(* ================================================================== *)

Module CleanLaws.

Import QAChain CreateDb.

Lemma join_broken_lines_eq (a b c : char) (rest : str) :
  join_broken_lines (a :: b :: c :: rest)
  = if (negb (is_cjk a) && (b =? 10)%N && negb (is_cjk c))
    then drop_newlines [a; b; c] ++ join_broken_lines rest
    else a :: join_broken_lines (b :: c :: rest).
Proof. reflexivity. Qed.

Lemma replace_pair_eq (o1 o2 : char) (new : str) (a b : char) (rest : str) :
  replace_pair o1 o2 new (a :: b :: rest)
  = if ((a =? o1) && (b =? o2))%N
    then new ++ replace_pair o1 o2 new rest
    else a :: replace_pair o1 o2 new (b :: rest).
Proof. reflexivity. Qed.

Lemma replace_char_nil_filter (f : char -> bool) (old : char) (s : str) :
  f old = false ->
  filter f (replace_char old [] s) = filter f s.
Proof.
  intros Hf. induction s as [|c s IH]; [reflexivity|].
  unfold replace_char in *. simpl.
  destruct (N.eqb_spec c old) as [->|Hne]; simpl.
  - rewrite Hf. exact IH.
  - rewrite IH. reflexivity.
Qed.

Lemma replace_char_nil_length (old : char) (s : str) :
  length (replace_char old [] s) <= length s.
Proof.
  induction s as [|c s IH]; [simpl; lia|].
  unfold replace_char in *. simpl.
  destruct (c =? old)%N; simpl; lia.
Qed.

Lemma join_broken_lines_facts (f : char -> bool) (n : nat) :
  f 10%N = false ->
  forall s, length s <= n ->
    filter f (join_broken_lines s) = filter f s
    /\ length (join_broken_lines s) <= length s.
Proof.
  intros Hf. induction n as [|n IH]; intros s Hn.
  - destruct s; [split; [reflexivity | simpl; lia] | simpl in Hn; lia].
  - destruct s as [|a [|b [|c rest]]].
    + split; [reflexivity | simpl; lia].
    + split; [reflexivity | simpl; lia].
    + split; [reflexivity | simpl; lia].
    + rewrite join_broken_lines_eq.
      destruct (negb (is_cjk a) && (b =? 10)%N && negb (is_cjk c)).
      * destruct (IH rest) as [H1 H2]; [simpl in Hn; lia|].
        split.
        -- rewrite filter_app, H1.
           unfold drop_newlines. rewrite (replace_char_nil_filter f 10%N _ Hf).
           change (a :: b :: c :: rest) with ([a; b; c] ++ rest).
           rewrite filter_app. reflexivity.
        -- rewrite length_app.
           pose proof (replace_char_nil_length 10%N [a; b; c]) as H3.
           unfold drop_newlines. simpl in H3 |- *. lia.
      * destruct (IH (b :: c :: rest)) as [H1 H2]; [simpl in Hn |- *; lia|].
        split.
        -- change (a :: join_broken_lines (b :: c :: rest))
             with ([a] ++ join_broken_lines (b :: c :: rest)).
           change (a :: b :: c :: rest) with ([a] ++ b :: c :: rest).
           rewrite !filter_app. f_equal. exact H1.
        -- simpl length in *. lia.
Qed.

Lemma replace_spaces_facts (f : char -> bool) (n : nat) :
  f 32%N = false ->
  forall s, length s <= n ->
    filter f (replace_pair 32%N 32%N [32%N] s) = filter f s
    /\ length (replace_pair 32%N 32%N [32%N] s) <= length s
    /\ (forall x, In x (replace_pair 32%N 32%N [32%N] s) -> In x s).
Proof.
  intros Hf. induction n as [|n IH]; intros s Hn.
  - destruct s; [|simpl in Hn; lia].
    split; [reflexivity|]. split; [simpl; lia | intros x []].
  - destruct s as [|a [|b rest]].
    + split; [reflexivity|]. split; [simpl; lia | intros x []].
    + split; [reflexivity|]. split; [simpl; lia | intros x H; exact H].
    + rewrite replace_pair_eq.
      destruct (N.eqb_spec a 32) as [->|Ha]; simpl andb.
      * destruct (N.eqb_spec b 32) as [->|Hb].
        -- destruct (IH rest) as (H1 & H2 & H3); [simpl in Hn; lia|].
           split; [|split].
           ++ simpl. rewrite Hf. exact H1.
           ++ simpl. lia.
           ++ intros x [<- | Hx]; [left; reflexivity | right; right; auto].
        -- cbv iota.
           destruct (IH (b :: rest)) as (H1 & H2 & H3); [simpl in Hn |- *; lia|].
           split; [|split].
           ++ change (32%N :: replace_pair 32%N 32%N [32%N] (b :: rest))
                with ([32%N] ++ replace_pair 32%N 32%N [32%N] (b :: rest)).
              change (32%N :: b :: rest) with ([32%N] ++ b :: rest).
              rewrite !filter_app. f_equal. exact H1.
           ++ simpl length in *. lia.
           ++ intros x [<- | Hx]; [left; reflexivity | right; auto].
      * cbv iota.
        destruct (IH (b :: rest)) as (H1 & H2 & H3); [simpl in Hn |- *; lia|].
        split; [|split].
        -- change (a :: replace_pair 32%N 32%N [32%N] (b :: rest))
             with ([a] ++ replace_pair 32%N 32%N [32%N] (b :: rest)).
           change (a :: b :: rest) with ([a] ++ b :: rest).
           rewrite !filter_app. f_equal. exact H1.
        -- simpl length in *. lia.
        -- intros x [<- | Hx]; [left; reflexivity | right; auto].
Qed.

(** X16.  Cleaning a text only ever takes away line feeds, spaces and
    bullets: every other character is kept, in its place among the others,
    and nothing is added (the text does not grow). *)
Theorem clean_content_keeps_text (s : str) :
  filter (fun c => negb (is_layout c)) (clean_content s)
  = filter (fun c => negb (is_layout c)) s
  /\ length (clean_content s) <= length s.
Proof.
  unfold clean_content.
  set (f := fun c => negb (is_layout c)).
  destruct (join_broken_lines_facts f (length s) eq_refl s (le_n _)) as [J1 J2].
  pose proof (replace_char_nil_filter f 8226%N (join_broken_lines s) eq_refl) as B1.
  pose proof (replace_char_nil_length 8226%N (join_broken_lines s)) as B2.
  destruct (replace_spaces_facts f
              (length (replace_char 8226%N [] (join_broken_lines s))) eq_refl
              (replace_char 8226%N [] (join_broken_lines s)) (le_n _))
    as (S1 & S2 & _).
  split.
  - rewrite S1, B1, J1. reflexivity.
  - lia.
Qed.

(** X17.  No bullet (U+2022) is left in a cleaned text. *)
Theorem clean_content_has_no_bullet (s : str) :
  ~ In 8226%N (clean_content s).
Proof.
  unfold clean_content. intros H.
  destruct (replace_spaces_facts (fun _ => false)
              (length (replace_char 8226%N [] (join_broken_lines s))) eq_refl
              (replace_char 8226%N [] (join_broken_lines s)) (le_n _))
    as (_ & _ & Hin).
  apply Hin in H. unfold replace_char in H.
  apply in_flat_map in H as (c & _ & Hc).
  destruct (c =? 8226)%N eqn:E; [destruct Hc|].
  destruct Hc as [-> | []]. rewrite N.eqb_refl in E. discriminate.
Qed.

Lemma join_broken_lines_no_newline (n : nat) :
  forall s : str, length s <= n -> ~ In 10%N s -> join_broken_lines s = s.
Proof.
  induction n as [|n IH]; intros s Hn Hs.
  - destruct s; [reflexivity | simpl in Hn; lia].
  - destruct s as [|a [|b [|c rest]]]; try reflexivity.
    rewrite join_broken_lines_eq.
    destruct (N.eqb_spec b 10) as [->|Hb].
    + exfalso. apply Hs. right. left. reflexivity.
    + rewrite andb_false_r. simpl andb. cbv iota.
      f_equal. apply IH; [simpl in Hn |- *; lia|].
      intros Hin. apply Hs. right. exact Hin.
Qed.

Lemma replace_char_absent (old : char) (new s : str) :
  ~ In old s -> replace_char old new s = s.
Proof.
  induction s as [|c s IH]; intros H; [reflexivity|].
  unfold replace_char in *. simpl.
  destruct (N.eqb_spec c old) as [->|Hne]; [exfalso; apply H; left; reflexivity|].
  simpl. rewrite IH; [reflexivity|]. intros Hin. apply H. right. exact Hin.
Qed.

Lemma replace_spaces_other (a : char) (l : str) :
  a <> 32%N ->
  replace_pair 32%N 32%N [32%N] (a :: l) = a :: replace_pair 32%N 32%N [32%N] l.
Proof.
  intros Ha. destruct l as [|b rest]; [reflexivity|].
  rewrite replace_pair_eq.
  destruct (N.eqb_spec a 32) as [E|_]; [contradiction | reflexivity].
Qed.

Lemma replace_spaces_word (u t : str) :
  ~ In 32%N u ->
  replace_pair 32%N 32%N [32%N] (u ++ t) = u ++ replace_pair 32%N 32%N [32%N] t.
Proof.
  induction u as [|a u IH]; intros H; [reflexivity|].
  simpl app. etransitivity.
  - apply replace_spaces_other. intros ->. apply H. left. reflexivity.
  - f_equal. apply IH. intros Hin. apply H. right. exact Hin.
Qed.

Lemma replace_spaces_run (v : str) (n : nat) :
  ~ In 32%N v ->
  replace_pair 32%N 32%N [32%N] (repeat 32%N n ++ v)
  = repeat 32%N (Nat.div2 (S n)) ++ v
  /\ replace_pair 32%N 32%N [32%N] (repeat 32%N (S n) ++ v)
     = repeat 32%N (Nat.div2 (S (S n))) ++ v.
Proof.
  intros Hv.
  assert (H0 : replace_pair 32%N 32%N [32%N] v = v).
  { pose proof (replace_spaces_word v [] Hv) as H. rewrite !app_nil_r in H.
    exact H. }
  assert (H1 : replace_pair 32%N 32%N [32%N] (32%N :: v) = 32%N :: v).
  { destruct v as [|b rest]; [reflexivity|].
    rewrite replace_pair_eq.
    destruct (N.eqb_spec b 32) as [E|_].
    - exfalso. apply Hv. left. exact E.
    - simpl andb. cbv iota. f_equal. exact H0. }
  induction n as [|n [IHa IHb]].
  - split; [exact H0 | exact H1].
  - split; [exact IHb|].
    change (repeat 32%N (S (S n)) ++ v) with (32%N :: 32%N :: (repeat 32%N n ++ v)).
    rewrite replace_pair_eq. simpl andb. cbv iota.
    change (Nat.div2 (S (S (S n)))) with (S (Nat.div2 (S n))).
    simpl repeat. simpl app. f_equal. exact IHa.
Qed.

(** X18.  Doubled spaces are replaced once, from the left: between two
    words without line feed, space or bullet, a run of [n] spaces comes out
    as a run of [n/2] spaces rounded up.  Two spaces become one, but three
    or four become two: a cleaned text can still hold doubled spaces. *)
Theorem clean_content_halves_spaces (u v : str) (n : nat) :
  (forall c, In c (u ++ v) -> is_layout c = false) ->
  clean_content (u ++ repeat 32%N n ++ v)
  = u ++ repeat 32%N (Nat.div2 (S n)) ++ v.
Proof.
  intros H.
  assert (Hno : forall x, is_layout x = true -> ~ In x u /\ ~ In x v).
  { intros x Hx. split; intros Hin.
    - rewrite (H x (in_or_app _ _ _ (or_introl Hin))) in Hx. discriminate.
    - rewrite (H x (in_or_app _ _ _ (or_intror Hin))) in Hx. discriminate. }
  destruct (Hno 10%N eq_refl) as [Hu10 Hv10].
  destruct (Hno 32%N eq_refl) as [Hu32 Hv32].
  destruct (Hno 8226%N eq_refl) as [Hub Hvb].
  assert (Hrep : forall x, x <> 32%N -> ~ In x (repeat 32%N n)).
  { intros x Hx Hin. apply repeat_spec in Hin. exact (Hx Hin). }
  unfold clean_content.
  rewrite (join_broken_lines_no_newline (length (u ++ repeat 32%N n ++ v)));
    [| apply le_n |].
  - rewrite replace_char_absent.
    + rewrite (replace_spaces_word u _ Hu32).
      rewrite (proj1 (replace_spaces_run v n Hv32)). reflexivity.
    + intros Hin. apply in_app_or in Hin as [Hin | Hin]; [exact (Hub Hin)|].
      apply in_app_or in Hin as [Hin | Hin]; [|exact (Hvb Hin)].
      apply (Hrep 8226%N); [discriminate | exact Hin].
  - intros Hin. apply in_app_or in Hin as [Hin | Hin]; [exact (Hu10 Hin)|].
    apply in_app_or in Hin as [Hin | Hin]; [|exact (Hv10 Hin)].
    apply (Hrep 10%N); [discriminate | exact Hin].
Qed.

Lemma clean_content_halves_spaces_witness :
  clean_content (lit "a" ++ repeat 32%N 3 ++ lit "b") = lit "a  b".
Proof.
  apply (clean_content_halves_spaces (lit "a") (lit "b") 3).
  intros c Hc. vm_compute in Hc.
  destruct Hc as [<- | [<- | []]]; reflexivity.
Defined.

End CleanLaws.

(* ================================================================== *)
(** * The ingestion script ([create_db.py], lines 146-164) *)
(* ================================================================== *)

Module ScriptLaws.

Import QAChain CreateDb.

Section Build.

Variable unicode_lower : char -> str.
Variable new_loader : loader_class -> str -> option exn.
Variable loader_load : Loader -> outcome (list Document).
Variable split_documents : list Document -> outcome (list Document).
Variable from_documents : list Document -> str -> outcome unit.

Local Abbreviation load_all := (load_documents unicode_lower new_loader loader_load).
Local Abbreviation script :=
  (main unicode_lower new_loader loader_load split_documents from_documents).

(** X19.  When loading gives no document at all, the script logs a
    warning as its last record and leaves through [exit(1)]: the splitter
    and the vector store are not called.  This is so in particular when no
    file of the folder has one of the four extensions; the log then holds
    the opening record and the warning only. *)
Theorem main_exits_when_nothing_loaded (walk : list (str * list str * list str)) :
  (snd (load_all walk) = Returned [] ->
   run_end (script walk) = SystemExit 1
   /\ run_calls (script walk) = []
   /\ fst (last (run_log (script walk)) (INFO, [])) = WARNING)
  /\ (collect_paths unicode_lower walk = [] ->
      run_end (script walk) = SystemExit 1
      /\ run_calls (script walk) = []
      /\ map fst (run_log (script walk)) = [INFO; WARNING]).
Proof.
  split.
  - intros H. unfold main.
    destruct (load_all walk) as [l1 r]. simpl in H. subst r.
    cbv zeta. cbn [truthy negb]. cbv iota. cbn [run_end run_calls run_log].
    repeat split. rewrite last_last. reflexivity.
  - intros H. unfold main, load_documents. rewrite H. simpl. repeat split.
Qed.

(** X20.  When loading gives at least one document, the splitter is called
    on the cleaned documents and, if it returns, the store is built from
    exactly what it returned, at [VECTOR_DB_PATH].  An [Exception] raised by
    the splitter or by the store is logged as the last record, at level
    ERROR with the exception's text, and the script still ends normally (no
    [exit], nothing raised); after a failing splitter the store is not
    called.  When both return, the last record is the success message. *)
Theorem main_after_loading (walk : list (str * list str * list str))
    (l1 : list log_record) (d : Document) (docs : list Document) :
  load_all walk = (l1, Returned (d :: docs)) ->
  let cleaned := map clean_doc (d :: docs) in
  (forall c m,
      split_documents cleaned = Raised (Exc c m) ->
      run_end (script walk) = Completed
      /\ run_calls (script walk) = [SplitDocuments cleaned]
      /\ last (run_log (script walk)) (INFO, [])
         = (ERROR, lit "生成数据库失败：" ++ m))
  /\ (forall split_docs c m,
         split_documents cleaned = Returned split_docs ->
         from_documents split_docs VECTOR_DB_PATH = Raised (Exc c m) ->
         run_end (script walk) = Completed
         /\ run_calls (script walk)
            = [SplitDocuments cleaned; FromDocuments split_docs VECTOR_DB_PATH]
         /\ last (run_log (script walk)) (INFO, [])
            = (ERROR, lit "生成数据库失败：" ++ m))
  /\ (forall split_docs,
         split_documents cleaned = Returned split_docs ->
         from_documents split_docs VECTOR_DB_PATH = Returned tt ->
         run_end (script walk) = Completed
         /\ run_calls (script walk)
            = [SplitDocuments cleaned; FromDocuments split_docs VECTOR_DB_PATH]
         /\ last (run_log (script walk)) (INFO, [])
            = (INFO, lit "新数据库生成成功！可直接用于RAG检索")).
Proof.
  intros Hl cleaned. unfold main. rewrite Hl.
  cbn [truthy negb]. cbv iota. fold cleaned.
  unfold process_and_split_docs, build_vector_db. fold cleaned.
  split; [|split].
  - intros c m Hs. rewrite Hs. unfold handle.
    cbn [run_end run_calls run_log].
    repeat split. rewrite last_last. reflexivity.
  - intros split_docs c m Hs Hb. rewrite Hs, Hb. unfold handle.
    cbn [run_end run_calls run_log].
    repeat split. rewrite last_last. reflexivity.
  - intros split_docs Hs Hb. rewrite Hs, Hb.
    cbn [run_end run_calls run_log].
    repeat split. rewrite !app_assoc, last_last. reflexivity.
Qed.

End Build.

Lemma main_exits_when_nothing_loaded_witness :
  let walk := [(lit "kb", @nil str, [lit "logo.png"; lit "README"])] in
  let r := main Stub.unicode_lower Stub.new_loader Stub.loader_load
             Stub.split_documents Stub.from_documents walk in
  run_end r = SystemExit 1
  /\ run_calls r = []
  /\ map fst (run_log r) = [INFO; WARNING].
Proof.
  apply (main_exits_when_nothing_loaded
           Stub.unicode_lower Stub.new_loader Stub.loader_load
           Stub.split_documents Stub.from_documents
           [(lit "kb", [], [lit "logo.png"; lit "README"])]).
  reflexivity.
Defined.

Lemma main_after_loading_witness :
  let r := main Stub.unicode_lower Stub.new_loader Stub.loader_load
             Stub.failing_split Stub.from_documents Stub.walk in
  run_end r = Completed
  /\ run_calls r
     = [SplitDocuments
          (map clean_doc
             [{| page_content := lit "text"; source := lit "kb/a.PDF" |};
              {| page_content := lit "text"; source := lit "kb/sub/b.txt" |}])]
  /\ last (run_log r) (INFO, [])
     = (ERROR, lit "生成数据库失败：" ++ lit "cannot split").
Proof.
  destruct (main_after_loading
              Stub.unicode_lower Stub.new_loader Stub.loader_load
              Stub.failing_split Stub.from_documents Stub.walk
              (fst (load_documents Stub.unicode_lower Stub.new_loader
                      Stub.loader_load Stub.walk))
              {| page_content := lit "text"; source := lit "kb/a.PDF" |}
              [{| page_content := lit "text"; source := lit "kb/sub/b.txt" |}])
    as (H & _ & _).
  - reflexivity.
  - apply (H "ValueError"%string (lit "cannot split")). reflexivity.
Defined.

End ScriptLaws.

(* ================================================================== *)
(** * The guard of [stream_answer], from the other side *)
(* ================================================================== *)

Module GuardLaws.

Import QAChain PyFacts.

(** X7.  A question with at least one character that is not white space
    passes the guard: the first [next] starts the chain, exactly once, and
    however long the consumer goes on no second run is started.  The chain
    is given the question as typed, surrounding white space included, and
    the history as alternating human and ai messages, two per turn. *)
Theorem nonblank_question_runs_chain_once
    (chat_model : ZhipuaiLLM -> list message -> list str * stream_end)
    (vector_search : Retriever -> str -> outcome (list Document))
    (w : world) (q : str) (n : nat) :
  forallb isspace q = false ->
  let r := pull chat_model vector_search (S n) w (stream_answer q) in
  let x := stream_input (self_ w) q in
  chain_streams (after r) = chain_streams w ++ [(chain (self_ w), x)]
  /\ x_input x = q
  /\ x_chat_history x = Some (formatted_history (chat_history (self_ w)))
  /\ length (formatted_history (chat_history (self_ w)))
     = 2 * length (chat_history (self_ w)).
Proof.
  intros Hq r x.
  assert (Hs : strip q <> []).
  { intros E. apply strip_nil_iff in E. rewrite E in Hq. discriminate. }
  split; [exact (ChainSpec.stream_answer_runs_chain_once
                   chat_model vector_search w q n Hs)|].
  split; [reflexivity|]. split; [reflexivity|].
  induction (chat_history (self_ w)) as [|t h IH]; [reflexivity|].
  simpl. simpl in IH. rewrite IH. lia.
Qed.

Lemma nonblank_question_runs_chain_once_witness :
  let q := lit "  hi " in
  let r := pull Stub.chat_model Stub.vector_search 4 Stub.talked (stream_answer q) in
  let x := stream_input (self_ Stub.talked) q in
  chain_streams (after r) = [] ++ [(chain (self_ Stub.talked), x)]
  /\ x_input x = q
  /\ x_chat_history x = Some (formatted_history Stub.two_turns)
  /\ length (formatted_history Stub.two_turns) = 2 * 2.
Proof.
  apply (nonblank_question_runs_chain_once
           Stub.chat_model Stub.vector_search Stub.talked (lit "  hi ") 3).
  reflexivity.
Defined.

End GuardLaws.

(** The extension laws, run on file names. *)

Module IngestExamples.

Import QAChain CreateDb.

Lemma ext_of_cases_witness :
  ext_of Stub.unicode_lower (lit "archive.tar" ++ 46%N :: lit "PDF") = lit "pdf"
  /\ ext_of Stub.unicode_lower (lit "README") = lit "readme".
Proof.
  destruct (IngestLaws.ext_of_cases Stub.unicode_lower
              (lit "archive.tar") (lit "PDF") (lit "README")) as [H1 H2].
  split.
  - apply H1. vm_compute. intuition discriminate.
  - apply H2. vm_compute. intuition discriminate.
Defined.

Lemma dotted_file_gets_a_loader_class_witness :
  exists cls,
    loader_class_of
      (ext_of Stub.unicode_lower (path_join (lit "kb/v1.2") (lit "a" ++ 46%N :: lit "Md")))
    = Some cls.
Proof.
  apply (IngestLaws.dotted_file_gets_a_loader_class Stub.unicode_lower
           (lit "kb/v1.2") (lit "a") (lit "Md")).
  reflexivity.
Defined.

End IngestExamples.
